(** * A shallow embedding of the DSL chatbot core (lexer, runtime environment,
      the two interpreters and the step-driven controller loop), and the
      properties of its specification checked against it.

    Python values are modelled as follows.
    - [str] is a [string] of bytes (the UTF-8 encoding of the text).  Every
      character the program inspects ([$], [#], quotes, letters, digits, the
      newline) is ASCII, and UTF-8 never uses an ASCII byte inside a longer
      sequence, so searching and replacing on bytes agrees with Python's
      operations on code points.
    - [int] is [Z]; a [dict] is a [gmap]; a [set] is a [gset].
    - A raised exception is a [Raise] result; the state reached when it was
      raised is returned next to it, because Python keeps every mutation
      made before the [raise].
    - [print] calls write to the console only and are left out. *)

From Stdlib Require Import ZArith Lia Ascii String List.
From stdpp Require Import base gmap strings list.

Local Open Scope string_scope.

(** ** Python builtins used by the sources *)
Module Py.

(** The runtime values the program stores in [RuntimeEnvironment.variables]
    (declared [Dict[str, Any]]): strings, the controller's list of intent
    names, and [None]. *)
Inductive Value :=
| PyNone
| PyStr (s : string)
| PyList (l : list string).

#[global] Instance Value_eq_dec : EqDecision Value.
Proof. solve_decision. Defined.

Inductive Exception :=
| UndefinedLabel (label_name : string)
    (* RuntimeError("未声明的标签: ..."), RuntimeError("Label not found: ...") *)
| UndefinedVariable (value : string)
    (* RuntimeError("未定义变量: ..."), RuntimeError("Undefined variable: ...") *)
| UnregisteredExternalFunction
    (* RuntimeError("get_intent function not registered") *)
| UnknownNodeType
    (* RuntimeError("未知节点类型: ...") *)
| PossibleInfiniteLoop
    (* RuntimeError("Possible infinite loop detected") *)
| IndexError
    (* list index out of range *)
| ValueError
    (* ValueError("脚本未初始化") *)
| SyntaxError (line column : Z) (char : string).
    (* SyntaxError("Unknown character at line .., column ..: '..'") *)

Inductive Result (A : Type) :=
| Ok (a : A)
| Raise (e : Exception).
Arguments Ok {A} a.
Arguments Raise {A} e.

(** [s.startswith(p)] *)
Definition startswith (s p : string) : bool := String.prefix p s.

(** [s[1:]] *)
Definition drop_first (s : string) : string :=
  match s with
  | EmptyString => EmptyString
  | String _ t => t
  end.

(** [s[:-1]] *)
Fixpoint drop_last (s : string) : string :=
  match s with
  | EmptyString => EmptyString
  | String _ EmptyString => EmptyString
  | String c t => String c (drop_last t)
  end.

(** [s.replace(old, new)] for a non-empty [old]: scan left to right; where
    [old] starts, emit [new] and skip [len(old)] characters.  [skip] counts
    the characters of a matched [old] still to be dropped. *)
Fixpoint replace_from (skip : nat) (old new s : string) : string :=
  match s with
  | EmptyString => EmptyString
  | String c t =>
      match skip with
      | S k => replace_from k old new t
      | O =>
          if String.prefix old s
          then new ++ replace_from (String.length old - 1) old new t
          else String c (replace_from O old new t)
      end
  end.

(** [s.replace("", new)] puts [new] before every character and at the end. *)
Fixpoint interleave (new s : string) : string :=
  match s with
  | EmptyString => new
  | String c t => new ++ String c (interleave new t)
  end.

Definition replace (s old new : string) : string :=
  match old with
  | EmptyString => interleave new s
  | _ => replace_from O old new s
  end.

Definition in_range (lo hi c : ascii) : bool :=
  (Ascii.leb lo c && Ascii.leb c hi)%bool.

(** [[a-zA-Z_]] *)
Definition is_ident_start (c : ascii) : bool :=
  (in_range "a" "z" c || in_range "A" "Z" c || Ascii.eqb c "_")%bool.

(** [[a-zA-Z0-9_]] *)
Definition is_ident_char (c : ascii) : bool :=
  (is_ident_start c || in_range "0" "9" c)%bool.

Definition starts_ident (s : string) : bool :=
  match s with
  | String c _ => is_ident_start c
  | EmptyString => false
  end.

(** [[m.group() for m in re.finditer(r'\$[a-zA-Z_][a-zA-Z0-9_]*', text)]]:
    the non-overlapping matches from left to right, each one a [$], an
    identifier start and the longest run of identifier characters.  [cur]
    is the match being extended, if any. *)
Fixpoint finditer_variables (cur : option string) (text : string) : list string :=
  match text with
  | EmptyString =>
      match cur with
      | Some m => [m]
      | None => []
      end
  | String c t =>
      let start :=
        if (Ascii.eqb c "$" && starts_ident t)%bool
        then finditer_variables (Some "$") t
        else finditer_variables None t in
      match cur with
      | Some m =>
          if is_ident_char c
          then finditer_variables (Some (m ++ String c EmptyString)) t
          else m :: start
      | None => start
      end
  end.

(** The double quote character. *)
Definition dquote : ascii := "034"%char.

(** A byte that continues the UTF-8 sequence of a character. *)
Definition is_continuation (c : ascii) : bool :=
  let n := N_of_ascii c in ((128 <=? n) && (n <? 192))%N%bool.

(** [len(s)] of a [str]: the number of its characters, one for every byte
    that does not continue a sequence. *)
Fixpoint code_points (s : string) : nat :=
  match s with
  | EmptyString => O
  | String c t => if is_continuation c then code_points t else S (code_points t)
  end.

(** The bytes at the start of [s] that continue a sequence. *)
Fixpoint continuation_bytes (s : string) : string :=
  match s with
  | EmptyString => EmptyString
  | String c t => if is_continuation c then String c (continuation_bytes t) else EmptyString
  end.

(** [s[0]] of the text [String c t]: its first character, with all the bytes
    of its sequence. *)
Definition first_character (c : ascii) (t : string) : string :=
  String c (continuation_bytes t).

Definition hex_digit (n : N) : ascii :=
  if (n <? 10)%N then ascii_of_N (48 + n) else ascii_of_N (87 + n).

(** One character of [repr(s)] with [quote] as the chosen quote. *)
Definition repr_char (quote c : ascii) : string :=
  let n := N_of_ascii c in
  if (Ascii.eqb c quote || Ascii.eqb c "\")%bool then String "\" (String c EmptyString)
  else if (n =? 9)%N then "\t"
  else if (n =? 10)%N then "\n"
  else if (n =? 13)%N then "\r"
  else if ((n <? 32) || (n =? 127))%N%bool
       then String "\" (String "x" (String (hex_digit (n / 16)) (String (hex_digit (n mod 16)) EmptyString)))
  else String c EmptyString.

Fixpoint contains_char (c : ascii) (s : string) : bool :=
  match s with
  | EmptyString => false
  | String d t => (Ascii.eqb c d || contains_char c t)%bool
  end.

Fixpoint concat_map (f : ascii -> string) (s : string) : string :=
  match s with
  | EmptyString => EmptyString
  | String c t => f c ++ concat_map f t
  end.

(** [repr(s)] of a string: single quotes, unless the text has a single and
    no double quote; backslash escapes for the quote, the backslash and
    ASCII control characters.  The bytes of non-ASCII text are kept, as
    Python keeps the printable non-ASCII characters; the non-ASCII
    characters that Python counts as not printable (the no-break space, the
    ideographic space, ...) and writes as an escape are outside what this
    definition covers. *)
Definition repr_str (s : string) : string :=
  let quote : ascii :=
    if (contains_char "'" s && negb (contains_char dquote s))%bool then dquote else "'"%char in
  String quote (concat_map (repr_char quote) s ++ String quote EmptyString).

Fixpoint join (sep : string) (l : list string) : string :=
  match l with
  | [] => EmptyString
  | [x] => x
  | x :: r => x ++ sep ++ join sep r
  end.

(** [str(v)] *)
Definition str (v : Value) : string :=
  match v with
  | PyNone => "None"
  | PyStr s => s
  | PyList l => "[" ++ join ", " (map repr_str l) ++ "]"
  end.

(** Truth value of an [Optional[str]]: [None] and [""] are false. *)
Definition truthy (r : option string) : bool :=
  match r with
  | None => false
  | Some EmptyString => false
  | Some _ => true
  end.

(** [if result: replies.append(result)] *)
Definition append_if_true (result : option string) (replies : list string) : list string :=
  match result with
  | Some r => if truthy result then (replies ++ [r])%list else replies
  | None => replies
  end.

(** [l[i]] on a list: a negative index counts from the end; outside
    [-len(l) .. len(l)-1] Python raises [IndexError] ([None] here). *)
Definition getitem {A} (l : list A) (i : Z) : option A :=
  if (0 <=? i)%Z then l !! Z.to_nat i
  else if (- Z.of_nat (length l) <=? i)%Z then l !! Z.to_nat (Z.of_nat (length l) + i)
  else None.

End Py.
Import Py.

(** ** nodes.py *)
Module Nodes.

Inductive ASTNode :=
| LabelNode (name : string)
| ReplyNode (message : string)
| SetNode (var_name : string) (value : string)
| GetIntentNode (var_name : string)
| IfNode (var_name compare_value target_label : string)
| GotoNode (target_label : string)
| ExitNode
| IntentsNode (intent_names : list string)
| LabelDeclarationsNode (label_names : list string)
| PauseForInputNode.

#[global] Instance ASTNode_eq_dec : EqDecision ASTNode.
Proof. solve_decision. Defined.

Record ScriptNode := { statements : list ASTNode }.

End Nodes.
Import Nodes.

(** ** runtime.py *)
Module Runtime.

Record RuntimeEnvironment := {
  variables : gmap string Value;
  labels : gmap string Z;
  current_line : Z;
  should_exit : bool;
  last_reply : option string;
  defined_intents : list string
}.

(** [RuntimeEnvironment.__init__] *)
Definition __init__ : RuntimeEnvironment :=
  {| variables := ∅; labels := ∅; current_line := 0; should_exit := false;
     last_reply := None; defined_intents := [] |}.

Definition with_variables (v : gmap string Value) (rt : RuntimeEnvironment) :=
  {| variables := v; labels := labels rt; current_line := current_line rt;
     should_exit := should_exit rt; last_reply := last_reply rt;
     defined_intents := defined_intents rt |}.

Definition with_labels (l : gmap string Z) (rt : RuntimeEnvironment) :=
  {| variables := variables rt; labels := l; current_line := current_line rt;
     should_exit := should_exit rt; last_reply := last_reply rt;
     defined_intents := defined_intents rt |}.

Definition with_current_line (n : Z) (rt : RuntimeEnvironment) :=
  {| variables := variables rt; labels := labels rt; current_line := n;
     should_exit := should_exit rt; last_reply := last_reply rt;
     defined_intents := defined_intents rt |}.

Definition with_should_exit (b : bool) (rt : RuntimeEnvironment) :=
  {| variables := variables rt; labels := labels rt; current_line := current_line rt;
     should_exit := b; last_reply := last_reply rt;
     defined_intents := defined_intents rt |}.

Definition with_last_reply (r : option string) (rt : RuntimeEnvironment) :=
  {| variables := variables rt; labels := labels rt; current_line := current_line rt;
     should_exit := should_exit rt; last_reply := r;
     defined_intents := defined_intents rt |}.

Definition with_defined_intents (i : list string) (rt : RuntimeEnvironment) :=
  {| variables := variables rt; labels := labels rt; current_line := current_line rt;
     should_exit := should_exit rt; last_reply := last_reply rt;
     defined_intents := i |}.

Definition set_defined_intents (intents : list string) (rt : RuntimeEnvironment) :=
  with_defined_intents intents rt.

(** The copy is a new list object with the same elements; the object
    identity of the result is the subject of [ObjectStore] below. *)
Definition get_defined_intents (rt : RuntimeEnvironment) : list string :=
  defined_intents rt.

(** [if name.startswith('$'): name = name[1:]] *)
Definition strip_sigil (name : string) : string :=
  if startswith name "$" then drop_first name else name.

Definition set_variable (name : string) (value : Value) (rt : RuntimeEnvironment) :=
  with_variables (<[strip_sigil name := value]> (variables rt)) rt.

Definition get_variable (name : string) (default : Value) (rt : RuntimeEnvironment) : Value :=
  match variables rt !! strip_sigil name with
  | Some v => v
  | None => default
  end.

Definition register_label (label_name : string) (line_number : Z) (rt : RuntimeEnvironment) :=
  with_labels (<[label_name := line_number]> (labels rt)) rt.

Definition jump_to_label (label_name : string) (rt : RuntimeEnvironment)
  : bool * RuntimeEnvironment :=
  match labels rt !! label_name with
  | Some line => (true, with_current_line line rt)
  | None => (false, rt)
  end.

Definition set_reply (message : string) (rt : RuntimeEnvironment) :=
  with_last_reply (Some message) rt.

Definition get_reply (rt : RuntimeEnvironment) : option string * RuntimeEnvironment :=
  (last_reply rt, with_last_reply None rt).

Definition reset (rt : RuntimeEnvironment) : RuntimeEnvironment :=
  {| variables := ∅;                      (* self.variables.clear() *)
     labels := ∅;                         (* self.labels.clear() *)
     current_line := 0;
     should_exit := false;
     last_reply := None;
     defined_intents := defined_intents rt |}.

End Runtime.
Import Runtime.

Local Open Scope Z_scope.

(** ** better_interpreter.py *)
Module BetterInterpreter.

(** A registered external function, called as
    [f(input_text, candidate_intents)]. *)
Abbreviation ExternalFunction := (Value -> list string -> Value).

(** The attributes of an [Interpreter] object.  [runtime] is the one
    [RuntimeEnvironment] the object was created with: the controller's
    [self.runtime] is this same object. *)
Record Interpreter := {
  runtime : RuntimeEnvironment;
  external_functions : gmap string ExternalFunction;
  _has_jumped : bool;
  _label_cache : gmap string Z;
  _pending_gotos : gmap string (list Z);
  _resolved_gotos : gset string;
  _label_statements_processed : gset Z;
  _execution_paused : bool;
  _pause_reason : option string;
  _pending_replies : list string
}.

Definition __init__ (rt : RuntimeEnvironment) : Interpreter :=
  {| runtime := rt; external_functions := ∅; _has_jumped := false;
     _label_cache := ∅; _pending_gotos := ∅; _resolved_gotos := ∅;
     _label_statements_processed := ∅; _execution_paused := false;
     _pause_reason := None; _pending_replies := [] |}.

Definition with_runtime (rt : RuntimeEnvironment) (it : Interpreter) :=
  {| runtime := rt; external_functions := external_functions it;
     _has_jumped := _has_jumped it; _label_cache := _label_cache it;
     _pending_gotos := _pending_gotos it; _resolved_gotos := _resolved_gotos it;
     _label_statements_processed := _label_statements_processed it;
     _execution_paused := _execution_paused it; _pause_reason := _pause_reason it;
     _pending_replies := _pending_replies it |}.

Definition with_external_functions (f : gmap string ExternalFunction) (it : Interpreter) :=
  {| runtime := runtime it; external_functions := f;
     _has_jumped := _has_jumped it; _label_cache := _label_cache it;
     _pending_gotos := _pending_gotos it; _resolved_gotos := _resolved_gotos it;
     _label_statements_processed := _label_statements_processed it;
     _execution_paused := _execution_paused it; _pause_reason := _pause_reason it;
     _pending_replies := _pending_replies it |}.

Definition with_has_jumped (b : bool) (it : Interpreter) :=
  {| runtime := runtime it; external_functions := external_functions it;
     _has_jumped := b; _label_cache := _label_cache it;
     _pending_gotos := _pending_gotos it; _resolved_gotos := _resolved_gotos it;
     _label_statements_processed := _label_statements_processed it;
     _execution_paused := _execution_paused it; _pause_reason := _pause_reason it;
     _pending_replies := _pending_replies it |}.

Definition with_label_cache (c : gmap string Z) (it : Interpreter) :=
  {| runtime := runtime it; external_functions := external_functions it;
     _has_jumped := _has_jumped it; _label_cache := c;
     _pending_gotos := _pending_gotos it; _resolved_gotos := _resolved_gotos it;
     _label_statements_processed := _label_statements_processed it;
     _execution_paused := _execution_paused it; _pause_reason := _pause_reason it;
     _pending_replies := _pending_replies it |}.

Definition with_pending_gotos (p : gmap string (list Z)) (it : Interpreter) :=
  {| runtime := runtime it; external_functions := external_functions it;
     _has_jumped := _has_jumped it; _label_cache := _label_cache it;
     _pending_gotos := p; _resolved_gotos := _resolved_gotos it;
     _label_statements_processed := _label_statements_processed it;
     _execution_paused := _execution_paused it; _pause_reason := _pause_reason it;
     _pending_replies := _pending_replies it |}.

Definition with_resolved_gotos (r : gset string) (it : Interpreter) :=
  {| runtime := runtime it; external_functions := external_functions it;
     _has_jumped := _has_jumped it; _label_cache := _label_cache it;
     _pending_gotos := _pending_gotos it; _resolved_gotos := r;
     _label_statements_processed := _label_statements_processed it;
     _execution_paused := _execution_paused it; _pause_reason := _pause_reason it;
     _pending_replies := _pending_replies it |}.

Definition with_label_statements_processed (s : gset Z) (it : Interpreter) :=
  {| runtime := runtime it; external_functions := external_functions it;
     _has_jumped := _has_jumped it; _label_cache := _label_cache it;
     _pending_gotos := _pending_gotos it; _resolved_gotos := _resolved_gotos it;
     _label_statements_processed := s;
     _execution_paused := _execution_paused it; _pause_reason := _pause_reason it;
     _pending_replies := _pending_replies it |}.

(** [self._execution_paused = b; self._pause_reason = r] *)
Definition with_pause (b : bool) (r : option string) (it : Interpreter) :=
  {| runtime := runtime it; external_functions := external_functions it;
     _has_jumped := _has_jumped it; _label_cache := _label_cache it;
     _pending_gotos := _pending_gotos it; _resolved_gotos := _resolved_gotos it;
     _label_statements_processed := _label_statements_processed it;
     _execution_paused := b; _pause_reason := r;
     _pending_replies := _pending_replies it |}.

Definition register_function (name : string) (func : ExternalFunction) (it : Interpreter) :=
  with_external_functions (<[name := func]> (external_functions it)) it.

(** [for match in re.finditer(variable_pattern, text): result =
    result.replace(var_name, str(var_value))] *)
Definition _resolve_variables_in_string (text : string) (it : Interpreter) : string :=
  fold_left
    (fun result var_name =>
       let var_value := get_variable var_name (PyStr "") (runtime it) in
       replace result var_name (str var_value))
    (finditer_variables None text) text.

Definition _predeclare_label (label_name : string) (it : Interpreter) : Interpreter :=
  with_label_cache (<[label_name := -1]> (_label_cache it)) it.

Definition _define_label (label_name : string) (line_number : Z) (it : Interpreter)
  : Interpreter :=
  if bool_decide (_label_cache it !! label_name = Some line_number) then it
  else
    let it1 := with_label_cache (<[label_name := line_number]> (_label_cache it)) it in
    match _pending_gotos it1 !! label_name with
    | Some _ =>
        with_pending_gotos (delete label_name (_pending_gotos it1))
          (with_resolved_gotos ({[label_name]} ∪ _resolved_gotos it1) it1)
    | None => it1
    end.

Definition _jump_to_label (label_name : string) (current_line : Z) (it : Interpreter)
  : Result unit * Interpreter :=
  match _label_cache it !! label_name with
  | Some target_line =>
      if bool_decide (target_line ≠ -1) then
        let target_line :=
          if bool_decide (target_line ∈ _label_statements_processed it)
          then target_line + 1 else target_line in
        (Ok tt,
         with_has_jumped true
           (with_runtime (with_current_line target_line (runtime it)) it))
      else
        let refs := default [] (_pending_gotos it !! label_name) in
        (Ok tt,
         with_pending_gotos (<[label_name := (refs ++ [current_line])%list]> (_pending_gotos it)) it)
  | None => (Raise (UndefinedLabel label_name), it)
  end.

Definition _execute_node (node : ASTNode) (current_line : Z) (it : Interpreter)
  : Result (option string) * Interpreter :=
  let it := with_pause false (_pause_reason it) (with_has_jumped false it) in
  match node with
  | LabelDeclarationsNode label_names =>
      (Ok None, fold_left (fun it label_name => _predeclare_label label_name it) label_names it)
  | IntentsNode intent_names =>
      (Ok None, with_runtime (set_defined_intents intent_names (runtime it)) it)
  | LabelNode name =>
      let it1 :=
        if bool_decide (_label_cache it !! name = None ∨ _label_cache it !! name = Some (-1))
        then _define_label name current_line it else it in
      (Ok None,
       with_label_statements_processed
         ({[current_line]} ∪ _label_statements_processed it1) it1)
  | ReplyNode message =>
      let message := _resolve_variables_in_string message it in
      (Ok (Some message), with_pause true (Some "reply") it)
  | SetNode var_name value =>
      if startswith value "$" then
        match get_variable value PyNone (runtime it) with
        | PyNone => (Raise (UndefinedVariable value), it)
        | actual_value =>
            (Ok None, with_runtime (set_variable var_name actual_value (runtime it)) it)
        end
      else (Ok None, with_runtime (set_variable var_name (PyStr value) (runtime it)) it)
  | GetIntentNode var_name =>
      (Ok None, with_pause true (Some "get_intent") it)
  | IfNode var_name compare_value target_label =>
      let var_value := get_variable var_name (PyStr "") (runtime it) in
      if bool_decide (var_value = PyStr compare_value) then
        match _jump_to_label target_label current_line it with
        | (Ok _, it1) => (Ok None, it1)
        | (Raise e, it1) => (Raise e, it1)
        end
      else (Ok None, it)
  | GotoNode target_label =>
      match _jump_to_label target_label current_line it with
      | (Ok _, it1) => (Ok None, it1)
      | (Raise e, it1) => (Raise e, it1)
      end
  | ExitNode =>
      (Ok None, with_runtime (with_should_exit true (runtime it)) it)
  | PauseForInputNode => (Raise UnknownNodeType, it)
  end.

(** [for line_num, node in enumerate(script.statements)] of [_scan_labels],
    from index [line_num] on. *)
Fixpoint scan_labels_from (line_num : Z) (nodes : list ASTNode) (it : Interpreter)
  : Interpreter :=
  match nodes with
  | [] => it
  | node :: rest =>
      scan_labels_from (line_num + 1) rest
        match node with
        | LabelNode name => _define_label name line_num it
        | _ => it
        end
  end.

Definition _scan_labels (script : ScriptNode) (it : Interpreter) : Interpreter :=
  scan_labels_from 0 (statements script) (with_label_cache ∅ it).

Definition max_iterations : nat := 1000.

(** [len(script.statements)] *)
Definition len (script : ScriptNode) : Z := Z.of_nat (length (statements script)).

(** The [while] loop of [_execute_script_phase2].  [iteration_count] goes
    from 0 up to [max_iterations]; the recursion is on [remaining =
    max_iterations - iteration_count], so the conjunct [iteration_count <
    max_iterations] of the loop condition is the test [remaining ≠ 0].  The
    result carries [remaining] as it is when the loop is left. *)
Fixpoint phase2_while (script : ScriptNode) (remaining : nat) (replies : list string)
    (it : Interpreter) : Result (nat * list string) * Interpreter :=
  match remaining with
  | O => (Ok (O, replies), it)
  | S remaining' =>
      if ((current_line (runtime it) <? len script) && negb (should_exit (runtime it)))%bool
      then
        match getitem (statements script) (current_line (runtime it)) with
        | None => (Raise IndexError, it)
        | Some node =>
            match _execute_node node (current_line (runtime it)) it with
            | (Raise e, it1) => (Raise e, it1)
            | (Ok result, it1) =>
                let replies1 := append_if_true result replies in
                let it2 :=
                  if _has_jumped it1 then with_has_jumped false it1
                  else with_runtime
                         (with_current_line (current_line (runtime it1) + 1) (runtime it1)) it1 in
                phase2_while script remaining' replies1 it2
            end
        end
      else (Ok (remaining, replies), it)
  end.

Definition _execute_script_phase2 (script : ScriptNode) (replies : list string)
    (it : Interpreter) : Result (list string) * Interpreter :=
  let it := with_runtime (with_should_exit false (with_current_line 0 (runtime it))) it in
  match phase2_while script max_iterations replies it with
  | (Raise e, it1) => (Raise e, it1)
  | (Ok (remaining, replies1), it1) =>
      (* if iteration_count >= max_iterations *)
      if (max_iterations <=? max_iterations - remaining)%nat
      then (Raise PossibleInfiniteLoop, it1)
      else (Ok replies1, it1)
  end.

Definition execute_script (script : ScriptNode) (it : Interpreter)
  : Result (list string) * Interpreter :=
  _execute_script_phase2 script [] (_scan_labels script it).

Definition execute_script_step (script : ScriptNode) (it : Interpreter)
  : Result (option string) * Interpreter :=
  if (len script <=? current_line (runtime it)) then (Ok None, it)
  else
    match getitem (statements script) (current_line (runtime it)) with
    | None => (Raise IndexError, it)
    | Some node =>
        match _execute_node node (current_line (runtime it)) it with
        | (Raise e, it1) => (Raise e, it1)
        | (Ok result, it1) =>
            (Ok result,
             if _has_jumped it1 then it1
             else with_runtime
                    (with_current_line (current_line (runtime it1) + 1) (runtime it1)) it1)
        end
    end.

Definition is_execution_paused (it : Interpreter) : bool := _execution_paused it.

Definition get_pause_reason (it : Interpreter) : option string := _pause_reason it.

Definition resume_execution (it : Interpreter) : Interpreter := with_pause false None it.

End BetterInterpreter.

(** ** main_controller.py: the step-driven turn of [DSLController] *)
Module MainController.
Import BetterInterpreter.

(** The attributes of a [DSLController] that [_execute_script] reads or
    writes.  [self.runtime] is [runtime (interpreter c)], the object shared
    with the interpreter.  The conversation history (a log with wall-clock
    time stamps) and the classifier client are left out. *)
Record DSLController := {
  script_ast : option ScriptNode;
  interpreter : Interpreter
}.

(** The reply of the [except Exception] handler of [_execute_script]. *)
Definition error_reply : string := "抱歉，系统出现错误，请稍后再试。".

(** The [while] loop of [_execute_script].  The source loop has no bound;
    [fuel] bounds the number of iterations looked at, and [None] says that
    the loop is still running after [fuel] iterations. *)
Fixpoint execute_script_while (fuel : nat) (script : ScriptNode) (replies : list string)
    (it : Interpreter) : option (Result (list string) * Interpreter) :=
  if ((current_line (runtime it) <? len script) && negb (should_exit (runtime it)))%bool
  then
    match fuel with
    | O => None
    | S fuel' =>
        match execute_script_step script it with
        | (Raise e, it1) => Some (Raise e, it1)
        | (Ok result, it1) =>
            let replies1 := append_if_true result replies in
            if is_execution_paused it1 then Some (Ok replies1, it1)
            else execute_script_while fuel' script replies1 it1
        end
    end
  else Some (Ok replies, it).

Definition _execute_script (fuel : nat) (c : DSLController)
  : option (list string * DSLController) :=
  match script_ast c with
  | None => Some ([error_reply], c)          (* ValueError, caught *)
  | Some script =>
      match execute_script_while fuel script [] (resume_execution (interpreter c)) with
      | None => None
      | Some (Ok replies, it1) =>
          Some (replies, {| script_ast := script_ast c; interpreter := it1 |})
      | Some (Raise _, it1) =>
          Some ([error_reply], {| script_ast := script_ast c; interpreter := it1 |})
      end
  end.

End MainController.

(** ** interpreter.py *)
Module BasicInterpreter.

Abbreviation ExternalFunction := (Value -> list string -> Value).

Record Interpreter := {
  runtime : RuntimeEnvironment;
  external_functions : gmap string ExternalFunction;
  _has_jumped : bool
}.

Definition __init__ (rt : RuntimeEnvironment) : Interpreter :=
  {| runtime := rt; external_functions := ∅; _has_jumped := false |}.

Definition with_runtime (rt : RuntimeEnvironment) (it : Interpreter) :=
  {| runtime := rt; external_functions := external_functions it;
     _has_jumped := _has_jumped it |}.

Definition with_has_jumped (b : bool) (it : Interpreter) :=
  {| runtime := runtime it; external_functions := external_functions it;
     _has_jumped := b |}.

Definition register_function (name : string) (func : ExternalFunction) (it : Interpreter) :=
  {| runtime := runtime it; external_functions := <[name := func]> (external_functions it);
     _has_jumped := _has_jumped it |}.

Definition _resolve_variables_in_string (text : string) (it : Interpreter) : string :=
  fold_left
    (fun result var_name =>
       let var_value := get_variable var_name (PyStr "") (runtime it) in
       replace result var_name (str var_value))
    (finditer_variables None text) text.

(** [for line_number, node in enumerate(script.statements)] of
    [_build_label_index], from index [line_number] on. *)
Fixpoint build_label_index_from (line_number : Z) (nodes : list ASTNode)
    (rt : RuntimeEnvironment) : RuntimeEnvironment :=
  match nodes with
  | [] => rt
  | node :: rest =>
      build_label_index_from (line_number + 1) rest
        match node with
        | LabelNode name => register_label name line_number rt
        | _ => rt
        end
  end.

Definition _build_label_index (script : ScriptNode) (it : Interpreter) : Interpreter :=
  with_runtime (build_label_index_from 0 (statements script) (with_labels ∅ (runtime it))) it.

(** [success = self.runtime.jump_to_label(label); if success:
    self._has_jumped = True else: raise RuntimeError("Label not found")] *)
Definition jump (target_label : string) (it : Interpreter) : Result unit * Interpreter :=
  match jump_to_label target_label (runtime it) with
  | (true, rt) => (Ok tt, with_has_jumped true (with_runtime rt it))
  | (false, rt) => (Raise (UndefinedLabel target_label), with_runtime rt it)
  end.

Definition _execute_node (node : ASTNode) (it : Interpreter) : Result unit * Interpreter :=
  let it := with_has_jumped false it in
  match node with
  | LabelNode _ => (Ok tt, it)
  | IntentsNode _ => (Ok tt, it)
  | GetIntentNode var_name =>
      match external_functions it !! "get_intent" with
      | Some func =>
          let input_text := get_variable var_name (PyStr "") (runtime it) in
          let defined_intents := get_defined_intents (runtime it) in
          let intent := func input_text defined_intents in
          (Ok tt, with_runtime (set_variable "intent" intent (runtime it)) it)
      | None => (Raise UnregisteredExternalFunction, it)
      end
  | ReplyNode message =>
      let message := _resolve_variables_in_string message it in
      (Ok tt, with_runtime (set_reply message (runtime it)) it)
  | SetNode var_name value =>
      if startswith value "$" then
        match get_variable value PyNone (runtime it) with
        | PyNone => (Raise (UndefinedVariable value), it)
        | actual_value =>
            (Ok tt, with_runtime (set_variable var_name actual_value (runtime it)) it)
        end
      else (Ok tt, with_runtime (set_variable var_name (PyStr value) (runtime it)) it)
  | IfNode var_name compare_value target_label =>
      let var_value := get_variable var_name (PyStr "") (runtime it) in
      if bool_decide (var_value = PyStr compare_value) then jump target_label it
      else (Ok tt, it)
  | GotoNode target_label => jump target_label it
  | ExitNode => (Ok tt, with_runtime (with_should_exit true (runtime it)) it)
  | LabelDeclarationsNode _ | PauseForInputNode => (Raise UnknownNodeType, it)
  end.

End BasicInterpreter.

(** ** Python list objects and references to them

    [RuntimeEnvironment.defined_intents] holds a reference to a list object;
    [set_defined_intents] stores the caller's reference and
    [get_defined_intents] answers with [self.defined_intents.copy()], a new
    object.  Here list objects live in a store and the attribute is a
    reference into it. *)
Module ObjectStore.

Definition ref : Type := positive.

(** The environment object: its five other attributes by value and the
    reference held by [defined_intents]. *)
Record RuntimeEnvironment := {
  variables : gmap string Value;
  labels : gmap string Z;
  current_line : Z;
  should_exit : bool;
  last_reply : option string;
  defined_intents : ref
}.

(** What the environment holds, with the list read through the store (an
    attribute whose object is absent reads as the empty list). *)
Definition contents (σ : gmap positive (list string)) (rt : RuntimeEnvironment)
  : Runtime.RuntimeEnvironment :=
  {| Runtime.variables := variables rt; Runtime.labels := labels rt;
     Runtime.current_line := current_line rt; Runtime.should_exit := should_exit rt;
     Runtime.last_reply := last_reply rt;
     Runtime.defined_intents := default [] (σ !! defined_intents rt) |}.

Definition set_defined_intents (intents : ref) (rt : RuntimeEnvironment) : RuntimeEnvironment :=
  {| variables := variables rt; labels := labels rt; current_line := current_line rt;
     should_exit := should_exit rt; last_reply := last_reply rt;
     defined_intents := intents |}.

(** [l.copy()]: a new object with the elements of [l]. *)
Definition list_copy (l : ref) (σ : gmap positive (list string))
  : ref * gmap positive (list string) :=
  let r := fresh (dom σ) in
  (r, <[r := default [] (σ !! l)]> σ).

Definition get_defined_intents (rt : RuntimeEnvironment) (σ : gmap positive (list string))
  : ref * gmap positive (list string) :=
  list_copy (defined_intents rt) σ.

(** An in-place mutation of the list object [l] ([append], [extend],
    [clear], [pop], item assignment, ...): its elements become [f] of the
    old ones, and no other object changes. *)
Definition mutate (f : list string -> list string) (l : ref)
    (σ : gmap positive (list string)) : gmap positive (list string) :=
  alter f l σ.

(** [l.append(x)] *)
Definition append (x : string) : list string -> list string := fun l => (l ++ [x])%list.

End ObjectStore.

(** ** lexer.py *)
Module Lexer.

Inductive TokenType :=
| REPLY | SET | GET_INTENT | IF | THEN | GOTO | EXIT | EQUALS | STRING
| VARIABLE | LABEL | LABELS | COLON | NEWLINE | EOF | INTENTS | LBRACE
| RBRACE | COMMA | PAUSE_FOR_INPUT.

#[global] Instance TokenType_eq_dec : EqDecision TokenType.
Proof. solve_decision. Defined.

Record Token := { type : TokenType; value : string; line : Z; column : Z }.

(** The newline character. *)
Definition newline : ascii := "010"%char.

(** [s[n:]] *)
Fixpoint drop_chars (n : nat) (s : string) : string :=
  match n, s with
  | O, _ => s
  | S k, String _ t => drop_chars k t
  | S _, EmptyString => EmptyString
  end.

(** A fixed word such as [r'reply'] or [r'\{']: the text matched at the
    start of [s], if any. *)
Definition match_literal (word s : string) : option string :=
  if String.prefix word s then Some word else None.

(** The rest of a string literal after its opening quote: a greedy run of
    characters other than the double quote, then the closing double quote.
    The negated class of the pattern takes every other character, the
    newline too. *)
Fixpoint until_quote (s : string) : option string :=
  match s with
  | EmptyString => None
  | String c t =>
      if Ascii.eqb c dquote then Some (String c EmptyString)
      else option_map (String c) (until_quote t)
  end.

(** The [STRING] pattern: a double quote, characters other than the double
    quote, a double quote. *)
Definition match_string (s : string) : option string :=
  match s with
  | String c t => if Ascii.eqb c dquote then option_map (String c) (until_quote t) else None
  | EmptyString => None
  end.

(** [[a-zA-Z0-9_]*], greedy *)
Fixpoint ident_chars (s : string) : string :=
  match s with
  | String c t => if is_ident_char c then String c (ident_chars t) else EmptyString
  | EmptyString => EmptyString
  end.

(** [r'\$[a-zA-Z_][a-zA-Z0-9_]*'] *)
Definition match_variable (s : string) : option string :=
  match s with
  | String c (String d t) =>
      if (Ascii.eqb c "$" && is_ident_start d)%bool
      then Some (String c (String d (ident_chars t)))
      else None
  | _ => None
  end.

(** [r'[a-zA-Z_][a-zA-Z0-9_]*:'].  The colon is no identifier character, so
    giving back characters of the greedy run cannot make the colon match:
    the label is the longest run, and a colon has to follow it. *)
Definition match_label (s : string) : option string :=
  match s with
  | String c t =>
      if is_ident_start c then
        let name := String c (ident_chars t) in
        if startswith (drop_chars (String.length name) s) ":"
        then Some (name ++ ":") else None
      else None
  | EmptyString => None
  end.

(** [self.token_specs] without [SKIP] and [COMMENT], in the order of the
    alternatives of [self.regex_pattern]. *)
Definition token_specs : list (TokenType * (string -> option string)) :=
  [ (INTENTS, match_literal "intents");
    (LABELS, match_literal "labels");
    (REPLY, match_literal "reply");
    (SET, match_literal "set");
    (GET_INTENT, match_literal "get_intent");
    (PAUSE_FOR_INPUT, match_literal "pause_for_user_input");
    (IF, match_literal "if");
    (THEN, match_literal "then");
    (GOTO, match_literal "goto");
    (EQUALS, match_literal "==");
    (LBRACE, match_literal "{");
    (RBRACE, match_literal "}");
    (COMMA, match_literal ",");
    (STRING, match_string);
    (VARIABLE, match_variable);
    (LABEL, match_label);
    (COLON, match_literal ":");
    (NEWLINE, match_literal (String newline EmptyString));
    (EXIT, match_literal "exit") ].

(** [self.pattern.match(self.source, self.position)] on [s =
    source[position:]]: the first alternative that matches decides, and
    gives [match.lastgroup] and [match.group()]. *)
Fixpoint pattern_match (specs : list (TokenType * (string -> option string))) (s : string)
  : option (TokenType * string) :=
  match specs with
  | [] => None
  | (name, pattern) :: rest =>
      match pattern s with
      | Some text => Some (name, text)
      | None => pattern_match rest s
      end
  end.

(** [while self.position < len(self.source) and self.source[self.position]
    != '\n': self.position += 1] *)
Fixpoint skip_comment (s : string) : string :=
  match s with
  | String c t => if Ascii.eqb c newline then s else skip_comment t
  | EmptyString => EmptyString
  end.

(** [if token_type == STRING: token_value = token_value[1:-1] elif
    token_type == LABEL: token_value = token_value[:-1]] *)
Definition strip_delimiters (token_type : TokenType) (text : string) : string :=
  match token_type with
  | STRING => drop_last (drop_first text)
  | LABEL => drop_last text
  | _ => text
  end.

(** The main loop of [tokenize] on [rest = source[position:]].  Every
    iteration moves [position] forward, so [len(source)] iterations are
    enough; [None] is the loop still running when [fuel] is used up. *)
Fixpoint tokenize_while (fuel : nat) (rest : string) (line column : Z) (tokens : list Token)
  : option (Result (list Token)) :=
  match rest with
  | EmptyString =>
      Some (Ok (tokens ++ [{| type := EOF; value := ""; line := line; column := column |}])%list)
  | String c t =>
      match fuel with
      | O => None
      | S fuel' =>
          if (Ascii.eqb c " " || Ascii.eqb c "009")%bool
          then tokenize_while fuel' t line column tokens
          else if Ascii.eqb c "#"
          then tokenize_while fuel' (skip_comment rest) line column tokens
          else
            match pattern_match token_specs rest with
            | Some (token_type, text) =>
                let token_value := strip_delimiters token_type text in
                let token :=
                  {| type := token_type; value := token_value; line := line; column := column |} in
                let rest' := drop_chars (String.length text) rest in
                match token_type with
                | NEWLINE => tokenize_while fuel' rest' (line + 1) 1 (tokens ++ [token])%list
                | _ =>
                    tokenize_while fuel' rest' line
                      (column + Z.of_nat (code_points token_value)) (tokens ++ [token])%list
                end
            | None => Some (Raise (SyntaxError line column (first_character c t)))
            end
      end
  end.

(** [Lexer(source).tokenize()]: [__init__] sets [column] to 1 and
    [tokenize] starts at [position = 0], [line = 1]. *)
Definition tokenize (source : string) : option (Result (list Token)) :=
  tokenize_while (String.length source) source 1 1 [].

(** The text of a token has a newline in it. *)
Definition spans_newline (t : Token) : bool := contains_char newline (value t).

End Lexer.

(** ** parser.py *)
Module Parser.
Import Lexer.

(** The exceptions of the parser: the three [SyntaxError] messages, and the
    [AttributeError] Python raises when the parser reads [.type] or [.line]
    of [self.current_token] after the tokens have run out (it is [None]
    then). *)
Inductive ParserError :=
| Expected (expected found : TokenType) (line : Z)
    (* SyntaxError("Expected .., got .. at line ..") *)
| UnexpectedToken (found : TokenType) (line : Z)
    (* SyntaxError("Unexpected token .. at line ..") *)
| ExpectedValue (line : Z)
    (* SyntaxError("Expected string or variable after = at line ..") *)
| NoneTypeAttribute.
    (* AttributeError: 'NoneType' object has no attribute .. *)

(** The outcome of a parse method on the tokens from [current_token_index]
    on: its result with the tokens left, or the exception raised. *)
Inductive Parsed (A : Type) :=
| Done (a : A) (rest : list Token)
| Fail (e : ParserError).
Arguments Done {A} a rest.
Arguments Fail {A} e.

(** [self.eat(token_type)].  The state of the parser is the list of tokens
    from [current_token_index] on: [current_token] is its head, and [None]
    when it is empty. *)
Definition eat (token_type : TokenType) (tokens : list Token) : Parsed Token :=
  match tokens with
  | [] => Fail NoneTypeAttribute
  | token :: rest =>
      if bool_decide (type token = token_type) then Done token rest
      else Fail (Expected token_type (type token) (line token))
  end.

(** The loops of [parse_intents] and [parse_label_declarations]: while the
    current token is of the item kind ([STRING] or [LABEL]), eat it and keep
    its value; go on after a [COMMA], stop otherwise. *)
Fixpoint parse_items (kind : TokenType) (tokens : list Token) : list string * list Token :=
  match tokens with
  | item :: rest =>
      if bool_decide (type item = kind) then
        match rest with
        | comma :: rest' =>
            if bool_decide (type comma = COMMA) then
              let (names, left) := parse_items kind rest' in (value item :: names, left)
            else ([value item], rest)
        | [] => ([value item], rest)
        end
      else ([], tokens)
  | [] => ([], tokens)
  end.

Definition parse_label (tokens : list Token) : Parsed ASTNode :=
  match eat LABEL tokens with
  | Done token rest => Done (LabelNode (value token)) rest
  | Fail e => Fail e
  end.

Definition parse_intents (tokens : list Token) : Parsed ASTNode :=
  match eat INTENTS tokens with
  | Fail e => Fail e
  | Done _ rest =>
      match eat LBRACE rest with
      | Fail e => Fail e
      | Done _ rest =>
          let (intent_names, rest) := parse_items STRING rest in
          match eat RBRACE rest with
          | Fail e => Fail e
          | Done _ rest => Done (IntentsNode intent_names) rest
          end
      end
  end.

Definition parse_reply (tokens : list Token) : Parsed ASTNode :=
  match eat REPLY tokens with
  | Fail e => Fail e
  | Done _ rest =>
      match eat STRING rest with
      | Fail e => Fail e
      | Done string_token rest => Done (ReplyNode (value string_token)) rest
      end
  end.

Definition parse_set (tokens : list Token) : Parsed ASTNode :=
  match eat SET tokens with
  | Fail e => Fail e
  | Done _ rest =>
      match eat VARIABLE rest with
      | Fail e => Fail e
      | Done var_token rest =>
          match eat EQUALS rest with
          | Fail e => Fail e
          | Done _ rest =>
              match rest with
              | [] => Fail NoneTypeAttribute
              | value_token :: rest' =>
                  match type value_token with
                  | STRING | VARIABLE =>
                      Done (SetNode (value var_token) (value value_token)) rest'
                  | _ => Fail (ExpectedValue (line value_token))
                  end
              end
          end
      end
  end.

Definition parse_get_intent (tokens : list Token) : Parsed ASTNode :=
  match eat GET_INTENT tokens with
  | Fail e => Fail e
  | Done _ rest =>
      match eat VARIABLE rest with
      | Fail e => Fail e
      | Done var_token rest => Done (GetIntentNode (value var_token)) rest
      end
  end.

Definition parse_if (tokens : list Token) : Parsed ASTNode :=
  match eat IF tokens with
  | Fail e => Fail e
  | Done _ rest =>
  match eat VARIABLE rest with
  | Fail e => Fail e
  | Done var_token rest =>
  match eat EQUALS rest with
  | Fail e => Fail e
  | Done _ rest =>
  match eat STRING rest with
  | Fail e => Fail e
  | Done string_token rest =>
  match eat THEN rest with
  | Fail e => Fail e
  | Done _ rest =>
  match eat GOTO rest with
  | Fail e => Fail e
  | Done _ rest =>
  match eat LABEL rest with
  | Fail e => Fail e
  | Done label_token rest =>
      Done (IfNode (value var_token) (value string_token) (value label_token)) rest
  end end end end end end end.

Definition parse_goto (tokens : list Token) : Parsed ASTNode :=
  match eat GOTO tokens with
  | Fail e => Fail e
  | Done _ rest =>
      match eat LABEL rest with
      | Fail e => Fail e
      | Done label_token rest => Done (GotoNode (value label_token)) rest
      end
  end.

Definition parse_exit (tokens : list Token) : Parsed ASTNode :=
  match eat EXIT tokens with
  | Fail e => Fail e
  | Done _ rest => Done ExitNode rest
  end.

(** [print(self.current_token.type)] before the closing brace reads the
    current token, and fails like [eat] when there is none. *)
Definition parse_label_declarations (tokens : list Token) : Parsed ASTNode :=
  match eat LABELS tokens with
  | Fail e => Fail e
  | Done _ rest =>
      match eat LBRACE rest with
      | Fail e => Fail e
      | Done _ rest =>
          let (label_names, rest) := parse_items LABEL rest in
          match eat RBRACE rest with
          | Fail e => Fail e
          | Done _ rest => Done (LabelDeclarationsNode label_names) rest
          end
      end
  end.

(** [parse_statement], called with a current token (the loop of [parse]
    checks that there is one); with none it returns [None], no statement. *)
Definition parse_statement (tokens : list Token) : Parsed (option ASTNode) :=
  match tokens with
  | [] => Done None tokens
  | token :: _ =>
      let statement :=
        match type token with
        | LABEL => parse_label tokens
        | INTENTS => parse_intents tokens
        | REPLY => parse_reply tokens
        | SET => parse_set tokens
        | GET_INTENT => parse_get_intent tokens
        | IF => parse_if tokens
        | GOTO => parse_goto tokens
        | EXIT => parse_exit tokens
        | found => Fail (UnexpectedToken found (line token))
        end in
      match statement with
      | Done node rest => Done (Some node) rest
      | Fail e => Fail e
      end
  end.

(** [if statement: statements.append(statement)] *)
Definition append_statement (statement : option ASTNode) (statements : list ASTNode)
  : list ASTNode :=
  match statement with
  | Some node => (statements ++ [node])%list
  | None => statements
  end.

(** The [while] loop of [parse].  Every iteration eats a token, so
    [len(tokens)] iterations are enough; [None] is the loop still running
    when [fuel] is used up. *)
Fixpoint parse_while (fuel : nat) (tokens : list Token) (statements : list ASTNode)
  : option (Parsed (list ASTNode)) :=
  match tokens with
  | [] => Some (Done statements tokens)
  | token :: rest =>
      if bool_decide (type token = EOF) then Some (Done statements tokens)
      else
        match fuel with
        | O => None
        | S fuel' =>
            if bool_decide (type token = NEWLINE) then parse_while fuel' rest statements
            else
              match parse_statement tokens with
              | Fail e => Some (Fail e)
              | Done statement rest1 =>
                  let statements1 := append_statement statement statements in
                  match rest1 with
                  | next :: rest2 =>
                      if bool_decide (type next = NEWLINE)
                      then parse_while fuel' rest2 statements1
                      else parse_while fuel' rest1 statements1
                  | [] => parse_while fuel' rest1 statements1
                  end
              end
        end
  end.

(** [Parser(tokens).parse()].  The first line of [parse] prints
    [self.current_token.line], which fails on an empty token list. *)
Definition parse (tokens : list Token) : option (Parsed ScriptNode) :=
  match tokens with
  | [] => Some (Fail NoneTypeAttribute)
  | token :: _ =>
      let start :=
        if bool_decide (type token = LABELS) then
          match parse_label_declarations tokens with
          | Done label_decl rest => Done [label_decl] rest
          | Fail e => Fail e
          end
        else Done [] tokens in
      match start with
      | Fail e => Some (Fail e)
      | Done statements rest =>
          match parse_while (length rest) rest statements with
          | None => None
          | Some (Fail e) => Some (Fail e)
          | Some (Done statements rest) => Some (Done {| statements := statements |} rest)
          end
      end
  end.

End Parser.

(** ** controller.py and main_controller.py: loading a script *)
Module Loader.

(** What [load_script_from_string] ([_load_and_parse_script] without the
    file access) ends with: the script, the exception of the lexer or the
    exception of the parser. *)
Inductive Loaded :=
| Script (script : ScriptNode)
| LexerRaised (e : Exception)
| ParserRaised (e : Parser.ParserError).

(** [tokens = Lexer(script_content).tokenize(); Parser(tokens).parse()] *)
Definition load_script_from_string (script_content : string) : option Loaded :=
  match Lexer.tokenize script_content with
  | None => None
  | Some (Raise e) => Some (LexerRaised e)
  | Some (Ok tokens) =>
      match Parser.parse tokens with
      | None => None
      | Some (Parser.Fail e) => Some (ParserRaised e)
      | Some (Parser.Done script _) => Some (Script script)
      end
  end.

End Loader.

(** ** main_controller.py: initial variables, reset and the keyword fallback *)
Module Conversation.
Import BetterInterpreter MainController.

(** [sub in s] on strings *)
Fixpoint contains (s sub : string) : bool :=
  (String.prefix sub s ||
   match s with
   | EmptyString => false
   | String _ t => contains t sub
   end)%bool.

(** [_set_initial_variables]; [dsl_intents] is [self.dsl_intents]. *)
Definition _set_initial_variables (dsl_intents : list string) (rt : RuntimeEnvironment)
  : RuntimeEnvironment :=
  set_variable "$dsl_intents" (PyList dsl_intents)
    (set_variable "$intent" (PyStr "")
       (set_variable "$user_input" (PyStr "")
          (set_variable "$welcome_message"
             (PyStr "您好！我是聊天助手，请问有什么可以帮助您？")
             (set_variable "$bot_name" (PyStr "DSL聊天助手") rt)))).

(** [reset_conversation]: [self.runtime.reset()] and
    [self._set_initial_variables()] on the environment the interpreter
    shares (clearing the conversation history is left out with the
    history). *)
Definition reset_conversation (dsl_intents : list string) (c : DSLController) : DSLController :=
  {| script_ast := script_ast c;
     interpreter :=
       with_runtime (_set_initial_variables dsl_intents (reset (runtime (interpreter c))))
         (interpreter c) |}.

(** The keywords [_create_keyword_mapping] gives an intent: its name and the
    synonyms of the words found in it.  [list(set(keywords))] holds them in
    an order no caller depends on; here it is the set. *)
Definition keywords_of (intent : string) : gset string :=
  {[ intent ]}
  ∪ (if contains intent "查询" then {[ "查找"; "搜索"; "查"; "找" ]} else ∅)
  ∪ (if contains intent "商品" then {[ "产品"; "物品"; "货品" ]} else ∅)
  ∪ (if contains intent "客服" then {[ "人工"; "帮助"; "咨询" ]} else ∅)
  ∪ (if contains intent "订单" then {[ "物流"; "包裹"; "快递" ]} else ∅)
  ∪ (if contains intent "退出" then {[ "离开"; "结束"; "关闭"; "退出" ]} else ∅).

(** [mapping[key] = value] on a [dict] seen as its items in insertion
    order: a key already present keeps its place. *)
Fixpoint dict_set {V} (key : string) (v : V) (items : list (string * V))
  : list (string * V) :=
  match items with
  | [] => [(key, v)]
  | (k, w) :: rest =>
      if bool_decide (k = key) then (k, v) :: rest else (k, w) :: dict_set key v rest
  end.

(** [_create_keyword_mapping]: [mapping.items()] after the loop. *)
Definition _create_keyword_mapping (dsl_intents : list string)
  : list (string * gset string) :=
  fold_left (fun mapping intent => dict_set intent (keywords_of intent) mapping)
    dsl_intents [].

(** [any(keyword in user_input for keyword in keywords)] *)
Definition any_keyword_in (user_input : string) (keywords : gset string) : bool :=
  bool_decide (set_Exists (fun keyword => contains user_input keyword = true) keywords).

(** The [for intent, keywords in keyword_mapping.items()] loop of
    [_keyword_based_intent]: the first intent with a keyword in the input. *)
Fixpoint first_keyword_match (user_input : string) (items : list (string * gset string))
  : option string :=
  match items with
  | [] => None
  | (intent, keywords) :: rest =>
      if any_keyword_in user_input keywords then Some intent
      else first_keyword_match user_input rest
  end.

Definition _keyword_based_intent (dsl_intents : list string) (user_input : string) : string :=
  match first_keyword_match user_input (_create_keyword_mapping dsl_intents) with
  | Some intent => intent
  | None =>
      match dsl_intents with
      | first :: _ => first
      | [] => "其他"
      end
  end.

End Conversation.

(** ** Notions used in the statements on the lexer and the parser *)
Module Grammar.
Import Lexer.

(** What the parser reads of a token: its kind, and its text when it is a
    string, a variable or a label. *)
Definition payload (t : Token) : TokenType * string :=
  (type t,
   match type t with
   | STRING | VARIABLE | LABEL => value t
   | _ => EmptyString
   end).

Definition word (kind : TokenType) : TokenType * string := (kind, EmptyString).

(** The tokens of a list in braces: the items, with a comma between two. *)
Fixpoint items (kind : TokenType) (names : list string) : list (TokenType * string) :=
  match names with
  | [] => []
  | [name] => [(kind, name)]
  | name :: rest => (kind, name) :: word COMMA :: items kind rest
  end.

(** The tokens of a declaration of labels. *)
Definition render_declarations (label_names : list string) : list (TokenType * string) :=
  word LABELS :: word LBRACE :: (items LABEL label_names ++ [word RBRACE])%list.

(** The kinds of token that can spell the value of a [set]: a string, or a
    variable (parser.py, parse_set). *)
Definition is_value_kind (kind : TokenType) : bool :=
  match kind with
  | STRING | VARIABLE => true
  | _ => false
  end.

(** The tokens that spell a statement; [value_kind] is the kind of the token
    that spells the value of a [set], and is not looked at for another
    statement. *)
Definition render (value_kind : TokenType) (node : ASTNode) : list (TokenType * string) :=
  match node with
  | LabelNode name => [(LABEL, name)]
  | ReplyNode message => [word REPLY; (STRING, message)]
  | SetNode var_name v => [word SET; (VARIABLE, var_name); word EQUALS; (value_kind, v)]
  | GetIntentNode var_name => [word GET_INTENT; (VARIABLE, var_name)]
  | IfNode var_name compare_value target_label =>
      [word IF; (VARIABLE, var_name); word EQUALS; (STRING, compare_value);
       word THEN; word GOTO; (LABEL, target_label)]
  | GotoNode target_label => [word GOTO; (LABEL, target_label)]
  | ExitNode => [word EXIT]
  | IntentsNode intent_names =>
      word INTENTS :: word LBRACE :: (items STRING intent_names ++ [word RBRACE])%list
  | LabelDeclarationsNode label_names => render_declarations label_names
  | PauseForInputNode => []
  end.

(** The statements the grammar has a rule for in statement position. *)
Definition is_statement (node : ASTNode) : bool :=
  match node with
  | LabelDeclarationsNode _ | PauseForInputNode => false
  | _ => true
  end.

(** A line of a script: a statement, the kind of token its value is spelled
    with when it is a [set], and the number of newlines after it. *)
Record Line := {
  statement : ASTNode;
  value_kind : TokenType;
  newlines_after : nat
}.

Definition well_formed (line : Line) : bool :=
  is_statement (statement line) && is_value_kind (value_kind line).

(** Statements, each followed by a number of newlines. *)
Definition render_lines (lines : list Line) : list (TokenType * string) :=
  flat_map (fun line => (render (value_kind line) (statement line)
                           ++ repeat (word NEWLINE) (newlines_after line))%list) lines.

(** The label declarations a script may start with. *)
Definition render_header (header : option (list string)) : list (TokenType * string) :=
  match header with
  | Some label_names => render_declarations label_names
  | None => []
  end.

Definition header_nodes (header : option (list string)) : list ASTNode :=
  match header with
  | Some label_names => [LabelDeclarationsNode label_names]
  | None => []
  end.

(** The kinds of token a statement can start with. *)
Definition starts_statement (kind : TokenType) : bool :=
  match kind with
  | LABEL | INTENTS | REPLY | SET | GET_INTENT | IF | GOTO | EXIT => true
  | _ => false
  end.

(** The number of [NEWLINE] tokens in a list. *)
Fixpoint newlines (tokens : list Token) : Z :=
  match tokens with
  | [] => 0
  | t :: rest => (if bool_decide (type t = NEWLINE) then 1 else 0) + newlines rest
  end.

(** Every token stands on the line counted from the newlines before it. *)
Fixpoint lines_counted (first_line : Z) (tokens : list Token) : Prop :=
  match tokens with
  | [] => True
  | t :: rest =>
      line t = first_line ∧
      lines_counted (if bool_decide (type t = NEWLINE) then first_line + 1 else first_line) rest
  end.

End Grammar.

(** ** Notions used in the statements on templates and replies *)
Module Templates.

(** The text has no [$] in it. *)
Definition no_sigil (s : string) : bool := negb (contains_char "$" s).

Fixpoint all_ident_chars (s : string) : bool :=
  match s with
  | EmptyString => true
  | String c t => (is_ident_char c && all_ident_chars t)%bool
  end.

(** A variable name as the pattern takes it: a letter or underscore, then
    letters, digits and underscores. *)
Definition is_identifier (s : string) : bool := (starts_ident s && all_ident_chars s)%bool.

(** The text does not go on with a character of an identifier. *)
Definition ends_identifier (s : string) : bool :=
  match s with
  | EmptyString => true
  | String c _ => negb (is_ident_char c)
  end.

(** The replies collected from messages: the interpolated messages that are
    not empty, in order. *)
Definition collected (it : BetterInterpreter.Interpreter) (messages : list string)
  : list string :=
  fold_left
    (fun replies message =>
       append_if_true (Some (BetterInterpreter._resolve_variables_in_string message it))
         replies)
    messages [].

End Templates.

(** ** Notions used in the statements *)
Module Props.
Import BetterInterpreter.

(** The statement [node] names the label [l]: it defines it ([l:]) or
    declares it ([labels {..., l:, ...}]). *)
Definition names_label (l : string) (node : ASTNode) : bool :=
  match node with
  | LabelNode name => bool_decide (name = l)
  | LabelDeclarationsNode label_names => bool_decide (l ∈ label_names)
  | _ => false
  end.

(** The label [l] is declared or defined somewhere in the script. *)
Definition mentions_label (script : ScriptNode) (l : string) : bool :=
  existsb (names_label l) (statements script).

(** The statement [node], executed with the environment [rt], performs a
    jump to [target]: it is [goto target], or [if $v == "c" then goto target]
    with the comparison true. *)
Definition jumps_to (target : string) (node : ASTNode) (rt : RuntimeEnvironment) : Prop :=
  node = GotoNode target ∨
  ∃ var_name compare_value,
    node = IfNode var_name compare_value target ∧
    get_variable var_name (PyStr "") rt = PyStr compare_value.

(** The states an [Interpreter] object can be in while it runs [script]:
    it is created, functions are registered, the caller writes the
    (public) runtime environment, and the script is prescanned, stepped or
    resumed. *)
Inductive reachable (script : ScriptNode) : Interpreter -> Prop :=
| reach_init rt : reachable script (__init__ rt)
| reach_register name func it :
    reachable script it -> reachable script (register_function name func it)
| reach_runtime rt it :
    reachable script it -> reachable script (with_runtime rt it)
| reach_scan it :
    reachable script it -> reachable script (_scan_labels script it)
| reach_step it :
    reachable script it -> reachable script (snd (execute_script_step script it))
| reach_run it :
    reachable script it -> reachable script (snd (execute_script script it))
| reach_resume it :
    reachable script it -> reachable script (resume_execution it).

(** Every label in the cache is named by the script. *)
Definition cache_from (script : ScriptNode) (it : Interpreter) : Prop :=
  ∀ l, is_Some (_label_cache it !! l) → mentions_label script l = true.

(** A pattern that never matches the empty text. *)
Definition nonempty_pattern (pattern : string -> option string) : Prop :=
  ∀ s text, pattern s = Some text → (0 < String.length text)%nat.

(** A token other than a string literal and the [NEWLINE] token itself has
    no newline in its text. *)
Definition on_one_line (t : Lexer.Token) : Prop :=
  Lexer.type t ≠ Lexer.STRING → Lexer.type t ≠ Lexer.NEWLINE → Lexer.spans_newline t = false.

(** The texts a token specification matches, with the delimiters stripped,
    hold no newline. *)
Definition one_line_spec (spec : Lexer.TokenType * (string -> option string)) : Prop :=
  fst spec ≠ Lexer.STRING → fst spec ≠ Lexer.NEWLINE →
  ∀ s text, snd spec s = Some text →
  contains_char Lexer.newline (Lexer.strip_delimiters (fst spec) text) = false.

(** The statement pauses the stepping interpreter. *)
Definition pause_of (node : ASTNode) : option string :=
  match node with
  | ReplyNode _ => Some "reply"
  | GetIntentNode _ => Some "get_intent"
  | _ => None
  end.

(** What a pausing statement hands back to the caller. *)
Definition output_of (node : ASTNode) (it : Interpreter) : option string :=
  match node with
  | ReplyNode message => Some (_resolve_variables_in_string message it)
  | _ => None
  end.

End Props.

(** ** Scripts and states used as concrete inputs *)
Module Examples.
Import BetterInterpreter MainController.

(** A new session: [Interpreter(RuntimeEnvironment())]. *)
Definition new_session : Interpreter := __init__ Runtime.__init__.

(** [reply "Hi"] / [exit] *)
Definition hi_exit : ScriptNode := {| statements := [ReplyNode "Hi"; ExitNode] |}.

(** [goto L] / [exit] / [L:] / [reply "ok"] *)
Definition forward_goto : ScriptNode :=
  {| statements := [GotoNode "L"; ExitNode; LabelNode "L"; ReplyNode "ok"] |}.

(** [labels {L:}] / [goto L] / [exit] / [L:] / [reply "ok"] *)
Definition declared_forward_goto : ScriptNode :=
  {| statements :=
       [LabelDeclarationsNode ["L"]; GotoNode "L"; ExitNode; LabelNode "L"; ReplyNode "ok"] |}.

(** [loop:] / [goto loop] *)
Definition goto_loop : ScriptNode :=
  {| statements := [LabelNode "loop"; GotoNode "loop"] |}.

(** [loop:] / [set $x = "1"] / [goto loop] *)
Definition set_loop : ScriptNode :=
  {| statements := [LabelNode "loop"; SetNode "$x" "1"; GotoNode "loop"] |}.

(** The state of [goto_loop] once its [goto] has run. *)
Definition in_loop : Interpreter :=
  snd (execute_script_step goto_loop (snd (execute_script_step goto_loop new_session))).

(** [get_intent $user_input] / [exit] *)
Definition ask_intent : ScriptNode :=
  {| statements := [GetIntentNode "$user_input"; ExitNode] |}.

(** [goto nowhere] *)
Definition goto_nowhere : ScriptNode := {| statements := [GotoNode "nowhere"] |}.

(** A session with [$a = "X"] and [$ab = "Y"]. *)
Definition session_a_ab : Interpreter :=
  __init__ (set_variable "$ab" (PyStr "Y") (set_variable "$a" (PyStr "X") Runtime.__init__)).

(** A session with [$a = "$b"] and [$b = "Z"]. *)
Definition session_nested : Interpreter :=
  __init__ (set_variable "$b" (PyStr "Z") (set_variable "$a" (PyStr "$b") Runtime.__init__)).

(** An environment of a session in progress. *)
Definition used_environment : RuntimeEnvironment :=
  with_should_exit true
    (with_current_line 5
       (set_reply "Hello"
          (register_label "test" 5
             (set_variable "$name" (PyStr "Alice")
                (set_defined_intents ["query_price"; "add_to_cart"] Runtime.__init__))))).

(** The source text [reply "a<newline>b"]. *)
Definition two_line_string : string :=
  "reply " ++ String dquote ("a" ++ String Lexer.newline ("b" ++ String dquote "")).

(** A store with one list object, and an environment referring to it. *)
Definition one_list_store : gmap positive (list string) := {[ 1%positive := ["greeting"] ]}.

Definition one_list_environment : ObjectStore.RuntimeEnvironment :=
  {| ObjectStore.variables := ∅; ObjectStore.labels := ∅; ObjectStore.current_line := 0;
     ObjectStore.should_exit := false; ObjectStore.last_reply := None;
     ObjectStore.defined_intents := 1%positive |}.

End Examples.

(** * Properties *)

Import Props Examples.

(** ** The runtime environment *)

Lemma reset_is_init_but_intents (rt : RuntimeEnvironment) :
  reset rt = with_defined_intents (defined_intents rt) Runtime.__init__.
Proof. reflexivity. Qed.

(** C7: [reset] is meant to bring the environment back to the state
    [__init__] creates, but it leaves [defined_intents] as it was.  On
    every environment the result is the fresh state with the old intents still
    in it, and on [used_environment], whose intents are [query_price] and
    [add_to_cart], the result differs from the fresh state. *)
Theorem reset_keeps_defined_intents :
  (∀ rt, defined_intents (reset rt) = defined_intents rt) ∧
  defined_intents (reset used_environment) = ["query_price"; "add_to_cart"] ∧
  reset used_environment ≠ Runtime.__init__ ∧
  with_defined_intents [] (reset used_environment) = Runtime.__init__.
Proof.
  split; [reflexivity|]. split; [reflexivity|]. split; [|reflexivity].
  intros H. apply (f_equal defined_intents) in H. discriminate H.
Qed.

Lemma list_copy_fresh (l : ObjectStore.ref) (σ : gmap positive (list string)) :
  fst (ObjectStore.list_copy l σ) ∉ dom σ.
Proof. unfold ObjectStore.list_copy; simpl. apply is_fresh. Qed.

(** C9: [get_defined_intents] answers with a new list object that has the
    elements of the stored list.  Whatever in-place mutation [f] the caller
    then applies to the object it received, the environment reads as before
    (its intents and its other attributes), and so does every list object
    that existed before the call. *)
Theorem get_defined_intents_returns_copy
    (rt : ObjectStore.RuntimeEnvironment) (σ : gmap positive (list string))
    (f : list string -> list string) :
  ObjectStore.defined_intents rt ∈ dom σ →
  let r := fst (ObjectStore.get_defined_intents rt σ) in
  let σ1 := snd (ObjectStore.get_defined_intents rt σ) in
  r ≠ ObjectStore.defined_intents rt ∧
  σ1 !! r = σ !! ObjectStore.defined_intents rt ∧
  ObjectStore.contents σ1 rt = ObjectStore.contents σ rt ∧
  ObjectStore.contents (ObjectStore.mutate f r σ1) rt = ObjectStore.contents σ rt ∧
  ∀ l, l ∈ dom σ → ObjectStore.mutate f r σ1 !! l = σ !! l.
Proof.
  intros Hin r σ1.
  assert (Hfresh : r ∉ dom σ) by apply list_copy_fresh.
  assert (Hσ1 : σ1 = <[r := default [] (σ !! ObjectStore.defined_intents rt)]> σ)
    by reflexivity.
  assert (Hne : r ≠ ObjectStore.defined_intents rt).
  { intros Heq. apply Hfresh. rewrite Heq. exact Hin. }
  assert (Hold : ∀ l, l ∈ dom σ → ObjectStore.mutate f r σ1 !! l = σ !! l).
  { intros l Hl. unfold ObjectStore.mutate.
    assert (r ≠ l) by (intros Heq; apply Hfresh; rewrite Heq; exact Hl).
    rewrite lookup_alter_ne by done.
    rewrite Hσ1. by rewrite lookup_insert_ne. }
  assert (Hcopy : σ1 !! ObjectStore.defined_intents rt = σ !! ObjectStore.defined_intents rt).
  { rewrite Hσ1. by rewrite lookup_insert_ne. }
  split; [done|]. split.
  { rewrite Hσ1, lookup_insert_eq.
    apply elem_of_dom in Hin as [x Hx]. by rewrite Hx. }
  split; [unfold ObjectStore.contents; f_equal; f_equal; exact Hcopy|].
  split; [|done].
  unfold ObjectStore.contents. f_equal. f_equal. exact (Hold _ Hin).
Qed.

Lemma get_defined_intents_returns_copy_witness :
  1%positive ∈ dom one_list_store ∧
  ObjectStore.contents
    (ObjectStore.mutate (ObjectStore.append "other")
       (fst (ObjectStore.get_defined_intents one_list_environment one_list_store))
       (snd (ObjectStore.get_defined_intents one_list_environment one_list_store)))
    one_list_environment
  = ObjectStore.contents one_list_store one_list_environment.
Proof.
  assert (H : ObjectStore.defined_intents one_list_environment ∈ dom one_list_store).
  { apply elem_of_dom. exists ["greeting"]. reflexivity. }
  split; [exact H|].
  exact (proj1 (proj2 (proj2 (proj2
    (get_defined_intents_returns_copy one_list_environment one_list_store
       (ObjectStore.append "other") H))))).
Defined.

(** ** The stepping interpreter *)

(** C10: with the program counter at or past the end of the statements, a
    step returns [None] and changes nothing, in the environment and in the
    interpreter; no statement is indexed, so no [IndexError] arises. *)
Theorem execute_script_step_past_end (script : ScriptNode) (it : BetterInterpreter.Interpreter) :
  BetterInterpreter.len script ≤ current_line (BetterInterpreter.runtime it) →
  BetterInterpreter.execute_script_step script it = (Ok None, it).
Proof.
  intros H. unfold BetterInterpreter.execute_script_step.
  destruct (Z.leb_spec (BetterInterpreter.len script)
              (current_line (BetterInterpreter.runtime it))); [reflexivity | lia].
Qed.

Lemma execute_script_step_past_end_witness :
  BetterInterpreter.execute_script_step hi_exit
    (BetterInterpreter.with_runtime (with_current_line 2 Runtime.__init__) new_session)
  = (Ok None, BetterInterpreter.with_runtime (with_current_line 2 Runtime.__init__) new_session).
Proof.
  apply (execute_script_step_past_end hi_exit
           (BetterInterpreter.with_runtime (with_current_line 2 Runtime.__init__) new_session)).
  vm_compute. discriminate.
Defined.

(** C1, as stated, fails: in a new session on [reply "Hi"] / [exit] the
    statement at the program counter is the [reply]; one step pauses, and the
    program counter has moved from 0 to 1. *)
Lemma step_on_reply_moves_counter :
  getitem (statements hi_exit) (current_line (BetterInterpreter.runtime new_session))
    = Some (ReplyNode "Hi") ∧
  BetterInterpreter._execution_paused
    (snd (BetterInterpreter.execute_script_step hi_exit new_session)) = true ∧
  current_line (BetterInterpreter.runtime
    (snd (BetterInterpreter.execute_script_step hi_exit new_session))) = 1 ∧
  current_line (BetterInterpreter.runtime
    (snd (BetterInterpreter.execute_script_step hi_exit new_session)))
    ≠ current_line (BetterInterpreter.runtime new_session).
Proof. repeat split. discriminate. Qed.

(** C1, amended: when the statement at the program counter is a [reply] or a
    [get_intent], one step returns the interpolated message (nothing for
    [get_intent]), sets the pause flag with the reason [reply] or
    [get_intent], and moves the program counter to the next statement; every
    other part of the state is as before, the jump flag apart, which every
    step clears.  A turn started there (when the exit flag is clear) ends
    with that one step, and after [resume_execution] the program counter
    still is the moved one, so the next turn goes on at the statement after
    the pausing one. *)
Theorem pausing_step_advances_counter
    (script : ScriptNode) (it : BetterInterpreter.Interpreter) (node : ASTNode)
    (reason : string) :
  current_line (BetterInterpreter.runtime it) < BetterInterpreter.len script →
  getitem (statements script) (current_line (BetterInterpreter.runtime it)) = Some node →
  pause_of node = Some reason →
  let paused :=
    BetterInterpreter.with_runtime
      (with_current_line (current_line (BetterInterpreter.runtime it) + 1)
         (BetterInterpreter.runtime it))
      (BetterInterpreter.with_pause true (Some reason)
         (BetterInterpreter.with_has_jumped false it)) in
  BetterInterpreter.execute_script_step script it = (Ok (output_of node it), paused) ∧
  (∀ fuel replies,
     MainController.execute_script_while (S fuel) script replies it =
       if should_exit (BetterInterpreter.runtime it) then Some (Ok replies, it)
       else Some (Ok (append_if_true (output_of node it) replies), paused)) ∧
  BetterInterpreter.is_execution_paused paused = true ∧
  BetterInterpreter.get_pause_reason paused = Some reason ∧
  current_line (BetterInterpreter.runtime (BetterInterpreter.resume_execution paused))
    = current_line (BetterInterpreter.runtime it) + 1.
Proof.
  intros Hlt Hnode Hpause paused.
  assert (Hstep : BetterInterpreter.execute_script_step script it
                  = (Ok (output_of node it), paused)).
  { unfold BetterInterpreter.execute_script_step.
    destruct (Z.leb_spec (BetterInterpreter.len script)
                (current_line (BetterInterpreter.runtime it))); [lia|].
    rewrite Hnode.
    destruct node; simpl in Hpause; try discriminate; injection Hpause as <-; reflexivity. }
  split; [exact Hstep|]. split; [|repeat split].
  intros fuel replies. simpl.
  destruct (Z.ltb_spec (current_line (BetterInterpreter.runtime it))
              (BetterInterpreter.len script)); [|lia].
  destruct (should_exit (BetterInterpreter.runtime it)); simpl; [reflexivity|].
  rewrite Hstep. reflexivity.
Qed.

Lemma pausing_step_advances_counter_witness :
  BetterInterpreter.execute_script_step hi_exit new_session
  = (Ok (Some "Hi"),
     BetterInterpreter.with_runtime (with_current_line 1 Runtime.__init__)
       (BetterInterpreter.with_pause true (Some "reply") new_session)).
Proof.
  refine (proj1 (pausing_step_advances_counter hi_exit new_session (ReplyNode "Hi") "reply"
                   _ _ _)).
  - reflexivity.
  - reflexivity.
  - reflexivity.
Defined.

(** The interpreter of interpreter.py checks the registered functions when
    it executes [get_intent]: with none registered under [get_intent] it
    raises the unregistered-function error. *)
Lemma basic_get_intent_unregistered
    (basic : BasicInterpreter.Interpreter) (var_name : string) :
  BasicInterpreter.external_functions basic !! "get_intent" = None →
  BasicInterpreter._execute_node (GetIntentNode var_name) basic
    = (Raise UnregisteredExternalFunction, BasicInterpreter.with_has_jumped false basic).
Proof.
  intros Hnone.
  unfold BasicInterpreter._execute_node. cbv zeta.
  change (BasicInterpreter.external_functions (BasicInterpreter.with_has_jumped false basic))
    with (BasicInterpreter.external_functions basic).
  rewrite Hnone. reflexivity.
Qed.

(** The stepping interpreter of better_interpreter.py does not look at the
    registered functions for [get_intent]: in every state, whatever is
    registered, the statement sets the pause flag with the reason
    [get_intent], returns nothing and raises nothing. *)
Lemma stepping_get_intent_pauses
    (it : BetterInterpreter.Interpreter) (var_name : string) (current_line : Z) :
  BetterInterpreter._execute_node (GetIntentNode var_name) current_line it
    = (Ok None,
       BetterInterpreter.with_pause true (Some "get_intent")
         (BetterInterpreter.with_has_jumped false it)).
Proof. reflexivity. Qed.

(** C6: the stepping interpreter does not fail when [get_intent] runs with no
    function registered.  A new session has nothing registered under
    [get_intent]; its step on [get_intent $user_input] returns [None] with
    the pause flag set and the reason [get_intent], and raises nothing.  The
    turn of the controller on this script returns no reply (not the reply of
    its error handler), and the next turn runs on to [exit], again with no
    error.  On the same statement and with nothing registered either, the
    interpreter of interpreter.py raises the unregistered-function error.
    With a function registered, the step is the same and the variable
    [intent] stays unset: the registered function is not called. *)
Theorem get_intent_unregistered_raises_nothing :
  let paused :=
    BetterInterpreter.with_runtime (with_current_line 1 Runtime.__init__)
      (BetterInterpreter.with_pause true (Some "get_intent") new_session) in
  let exited :=
    BetterInterpreter.with_runtime
      (with_current_line 2 (with_should_exit true Runtime.__init__)) new_session in
  let registered :=
    BetterInterpreter.register_function "get_intent" (fun _ _ => PyStr "greeting")
      new_session in
  BetterInterpreter.external_functions new_session !! "get_intent" = None ∧
  BetterInterpreter.execute_script_step ask_intent new_session = (Ok None, paused) ∧
  MainController._execute_script 2
    {| MainController.script_ast := Some ask_intent;
       MainController.interpreter := new_session |}
    = Some ([], {| MainController.script_ast := Some ask_intent;
                   MainController.interpreter := paused |}) ∧
  MainController._execute_script 2
    {| MainController.script_ast := Some ask_intent;
       MainController.interpreter := paused |}
    = Some ([], {| MainController.script_ast := Some ask_intent;
                   MainController.interpreter := exited |}) ∧
  fst (BasicInterpreter._execute_node (GetIntentNode "$user_input")
         (BasicInterpreter.__init__ Runtime.__init__))
    = Raise UnregisteredExternalFunction ∧
  fst (BetterInterpreter.execute_script_step ask_intent registered) = Ok None ∧
  variables (BetterInterpreter.runtime
               (snd (BetterInterpreter.execute_script_step ask_intent registered)))
    !! "intent" = None.
Proof. repeat split. Qed.

(** ** Labels known to the interpreter come from the script *)

Lemma getitem_In {A} (l : list A) (i : Z) (x : A) : getitem l i = Some x → In x l.
Proof.
  unfold getitem. intros H. apply list_elem_of_In.
  destruct (0 <=? i); [|destruct (- Z.of_nat (length l) <=? i)];
    try discriminate; eapply list_elem_of_lookup_2; exact H.
Qed.

Lemma mentions_label_intro (script : ScriptNode) (l : string) (node : ASTNode) :
  In node (statements script) → names_label l node = true → mentions_label script l = true.
Proof. intros Hin Hn. apply existsb_exists. exists node. split; assumption. Qed.

Lemma cache_from_init (script : ScriptNode) (rt : RuntimeEnvironment) :
  cache_from script (BetterInterpreter.__init__ rt).
Proof. intros l [x Hx]. simpl in Hx. rewrite lookup_empty in Hx. discriminate. Qed.

Lemma cache_from_eq (script : ScriptNode) (it it' : BetterInterpreter.Interpreter) :
  BetterInterpreter._label_cache it' = BetterInterpreter._label_cache it →
  cache_from script it → cache_from script it'.
Proof. intros E H l. rewrite E. apply H. Qed.

Lemma cache_from_insert (script : ScriptNode) (it : BetterInterpreter.Interpreter)
    (l : string) (n : Z) :
  mentions_label script l = true → cache_from script it →
  cache_from script
    (BetterInterpreter.with_label_cache (<[l := n]> (BetterInterpreter._label_cache it)) it).
Proof.
  intros Hl H k Hk. simpl in Hk.
  destruct (decide (l = k)) as [<-|Hne]; [exact Hl|].
  rewrite lookup_insert_ne in Hk by exact Hne. apply H, Hk.
Qed.

Lemma cache_from_define_label (script : ScriptNode) (it : BetterInterpreter.Interpreter)
    (l : string) (n : Z) :
  mentions_label script l = true → cache_from script it →
  cache_from script (BetterInterpreter._define_label l n it).
Proof.
  intros Hl H. unfold BetterInterpreter._define_label.
  case_bool_decide; [exact H|].
  pose proof (cache_from_insert script it l n Hl H) as Hins.
  destruct (BetterInterpreter._pending_gotos _ !! l);
    [eapply cache_from_eq; [|exact Hins]; reflexivity | exact Hins].
Qed.

Lemma cache_from_predeclare (script : ScriptNode) (names : list string) :
  (∀ l, In l names → mentions_label script l = true) →
  ∀ it, cache_from script it →
  cache_from script
    (fold_left (fun it label_name => BetterInterpreter._predeclare_label label_name it) names it).
Proof.
  induction names as [|l names IH]; intros Hall it H; [exact H|].
  simpl. apply IH.
  - intros k Hk. apply Hall. right. exact Hk.
  - apply cache_from_insert; [apply Hall; left; reflexivity | exact H].
Qed.

Lemma jump_to_label_cache (l : string) (n : Z) (it : BetterInterpreter.Interpreter) :
  BetterInterpreter._label_cache (snd (BetterInterpreter._jump_to_label l n it))
  = BetterInterpreter._label_cache it.
Proof.
  unfold BetterInterpreter._jump_to_label.
  destruct (BetterInterpreter._label_cache it !! l); [|reflexivity].
  case_bool_decide; reflexivity.
Qed.

Lemma names_label_LabelNode (l : string) : names_label l (LabelNode l) = true.
Proof. simpl. apply bool_decide_eq_true. reflexivity. Qed.

Lemma names_label_declared (l : string) (names : list string) :
  In l names → names_label l (LabelDeclarationsNode names) = true.
Proof. intros H. simpl. apply bool_decide_eq_true, list_elem_of_In, H. Qed.

Ltac same_cache H := eapply cache_from_eq; [|exact H]; reflexivity.

Lemma cache_from_execute_node (script : ScriptNode) (node : ASTNode) (n : Z)
    (it : BetterInterpreter.Interpreter) :
  In node (statements script) → cache_from script it →
  cache_from script (snd (BetterInterpreter._execute_node node n it)).
Proof.
  intros Hin H. unfold BetterInterpreter._execute_node. cbv zeta.
  destruct node as [name|message|var_name value|var_name|var_name compare_value target
                   |target| |intent_names|label_names|].
  - (* LabelNode *)
    eapply cache_from_eq; [reflexivity|].
    case_bool_decide; [|same_cache H].
    apply cache_from_define_label; [|same_cache H].
    eapply mentions_label_intro; [exact Hin | apply names_label_LabelNode].
  - same_cache H.
  - destruct (startswith value "$"); [|same_cache H].
    destruct (get_variable value PyNone _); same_cache H.
  - same_cache H.
  - case_bool_decide; [|same_cache H].
    pose proof (jump_to_label_cache target n
      (BetterInterpreter.with_pause false (BetterInterpreter._pause_reason it)
         (BetterInterpreter.with_has_jumped false it))) as E.
    destruct (BetterInterpreter._jump_to_label target n _) as [[u|e] it1];
      (eapply cache_from_eq; [exact E|]; same_cache H).
  - pose proof (jump_to_label_cache target n
      (BetterInterpreter.with_pause false (BetterInterpreter._pause_reason it)
         (BetterInterpreter.with_has_jumped false it))) as E.
    destruct (BetterInterpreter._jump_to_label target n _) as [[u|e] it1];
      (eapply cache_from_eq; [exact E|]; same_cache H).
  - same_cache H.
  - same_cache H.
  - apply cache_from_predeclare; [|same_cache H].
    intros l Hl. eapply mentions_label_intro; [exact Hin | apply names_label_declared, Hl].
  - same_cache H.
Qed.

Lemma cache_from_step (script : ScriptNode) (it : BetterInterpreter.Interpreter) :
  cache_from script it →
  cache_from script (snd (BetterInterpreter.execute_script_step script it)).
Proof.
  intros H. unfold BetterInterpreter.execute_script_step.
  destruct (BetterInterpreter.len script <=? _); [exact H|].
  destruct (getitem _ _) as [node|] eqn:Hnode; [|exact H].
  pose proof (cache_from_execute_node script node
                (current_line (BetterInterpreter.runtime it)) it
                (getitem_In _ _ _ Hnode) H) as Hn.
  destruct (BetterInterpreter._execute_node node _ it) as [[result|e] it1]; [|exact Hn].
  simpl in *. destruct (BetterInterpreter._has_jumped it1); [exact Hn | same_cache Hn].
Qed.

Lemma cache_from_scan_from (script : ScriptNode) (nodes : list ASTNode) :
  (∀ node, In node nodes → In node (statements script)) →
  ∀ n it, cache_from script it →
  cache_from script (BetterInterpreter.scan_labels_from n nodes it).
Proof.
  induction nodes as [|node nodes IH]; intros Hsub n it H; [exact H|].
  simpl. apply IH; [intros k Hk; apply Hsub; right; exact Hk|].
  assert (Hin : In node (statements script)) by (apply Hsub; left; reflexivity).
  destruct node; try exact H.
  apply cache_from_define_label; [|exact H].
  eapply mentions_label_intro; [exact Hin | apply names_label_LabelNode].
Qed.

Lemma cache_from_scan (script : ScriptNode) (it : BetterInterpreter.Interpreter) :
  cache_from script (BetterInterpreter._scan_labels script it).
Proof.
  unfold BetterInterpreter._scan_labels. apply cache_from_scan_from; [auto|].
  intros l [x Hx]. simpl in Hx. rewrite lookup_empty in Hx. discriminate.
Qed.

Lemma cache_from_phase2_while (script : ScriptNode) (remaining : nat) :
  ∀ replies it, cache_from script it →
  cache_from script (snd (BetterInterpreter.phase2_while script remaining replies it)).
Proof.
  induction remaining as [|remaining IH]; intros replies it H; [exact H|].
  simpl. destruct (_ && _)%bool; [|exact H].
  destruct (getitem _ _) as [node|] eqn:Hnode; [|exact H].
  pose proof (cache_from_execute_node script node
                (current_line (BetterInterpreter.runtime it)) it
                (getitem_In _ _ _ Hnode) H) as Hn.
  destruct (BetterInterpreter._execute_node node _ it) as [[result|e] it1]; [|exact Hn].
  apply IH. simpl in Hn. destruct (BetterInterpreter._has_jumped it1); same_cache Hn.
Qed.

Lemma cache_from_execute_script (script : ScriptNode) (it : BetterInterpreter.Interpreter) :
  cache_from script (snd (BetterInterpreter.execute_script script it)).
Proof.
  unfold BetterInterpreter.execute_script, BetterInterpreter._execute_script_phase2.
  cbv zeta.
  pose proof (cache_from_phase2_while script BetterInterpreter.max_iterations []
    (BetterInterpreter.with_runtime
       (with_should_exit false
          (with_current_line 0
             (BetterInterpreter.runtime (BetterInterpreter._scan_labels script it))))
       (BetterInterpreter._scan_labels script it))) as Hw.
  destruct (BetterInterpreter.phase2_while _ _ _ _) as [[[remaining replies]|e] it1].
  - destruct (_ <=? _)%nat; apply Hw; same_cache (cache_from_scan script it).
  - apply Hw. same_cache (cache_from_scan script it).
Qed.

Lemma reachable_cache_from (script : ScriptNode) (it : BetterInterpreter.Interpreter) :
  reachable script it → cache_from script it.
Proof.
  induction 1 as [rt|name func it _ IH|rt it _ IH|it _ IH|it _ IH|it _ IH|it _ IH].
  - apply cache_from_init.
  - same_cache IH.
  - same_cache IH.
  - apply cache_from_scan.
  - apply cache_from_step, IH.
  - apply cache_from_execute_script.
  - same_cache IH.
Qed.

(** C5: in every state the stepping interpreter reaches on a script, a step
    on [goto target], or on an [if] whose comparison holds and whose target is
    [target], raises the undefined-label error when the script neither
    declares nor defines [target].  The state keeps its program counter (the
    step does not fall through to the next statement); only the jump and
    pause flags are cleared. *)
Theorem jump_to_undeclared_label_raises
    (script : ScriptNode) (it : BetterInterpreter.Interpreter) (node : ASTNode)
    (target : string) :
  reachable script it →
  mentions_label script target = false →
  current_line (BetterInterpreter.runtime it) < BetterInterpreter.len script →
  getitem (statements script) (current_line (BetterInterpreter.runtime it)) = Some node →
  jumps_to target node (BetterInterpreter.runtime it) →
  BetterInterpreter.execute_script_step script it
  = (Raise (UndefinedLabel target),
     BetterInterpreter.with_pause false (BetterInterpreter._pause_reason it)
       (BetterInterpreter.with_has_jumped false it)).
Proof.
  intros Hreach Hno Hlt Hnode Hjump.
  assert (Hcache : BetterInterpreter._label_cache it !! target = None).
  { destruct (BetterInterpreter._label_cache it !! target) as [n|] eqn:E; [|reflexivity].
    pose proof (reachable_cache_from script it Hreach target (ex_intro _ n E)) as Hm.
    congruence. }
  assert (Hj : ∀ n, BetterInterpreter._jump_to_label target n
             (BetterInterpreter.with_pause false (BetterInterpreter._pause_reason it)
                (BetterInterpreter.with_has_jumped false it))
           = (Raise (UndefinedLabel target),
              BetterInterpreter.with_pause false (BetterInterpreter._pause_reason it)
                (BetterInterpreter.with_has_jumped false it))).
  { intros n. unfold BetterInterpreter._jump_to_label.
    change (BetterInterpreter._label_cache
              (BetterInterpreter.with_pause false (BetterInterpreter._pause_reason it)
                 (BetterInterpreter.with_has_jumped false it)))
      with (BetterInterpreter._label_cache it).
    rewrite Hcache. reflexivity. }
  unfold BetterInterpreter.execute_script_step.
  destruct (Z.leb_spec (BetterInterpreter.len script)
              (current_line (BetterInterpreter.runtime it))); [lia|].
  rewrite Hnode.
  destruct Hjump as [->|(var_name & compare_value & -> & Hcmp)].
  - unfold BetterInterpreter._execute_node. cbv zeta. rewrite Hj. reflexivity.
  - unfold BetterInterpreter._execute_node. cbv zeta.
    change (BetterInterpreter.runtime
              (BetterInterpreter.with_pause false (BetterInterpreter._pause_reason it)
                 (BetterInterpreter.with_has_jumped false it)))
      with (BetterInterpreter.runtime it).
    rewrite Hcmp, bool_decide_eq_true_2 by reflexivity.
    rewrite Hj. reflexivity.
Qed.

Lemma jump_to_undeclared_label_raises_witness :
  BetterInterpreter.execute_script_step goto_nowhere new_session
  = (Raise (UndefinedLabel "nowhere"), new_session).
Proof.
  refine (jump_to_undeclared_label_raises goto_nowhere new_session (GotoNode "nowhere")
            "nowhere" _ _ _ _ _).
  - apply reach_init.
  - reflexivity.
  - reflexivity.
  - reflexivity.
  - left. reflexivity.
Defined.

(** The interpreter of interpreter.py looks the target up in the label table
    of the environment, which [_build_label_index] fills from the [LabelNode]
    statements, and raises the same error. *)
Lemma build_label_index_from_absent (target : string) (nodes : list ASTNode) :
  existsb (names_label target) nodes = false →
  ∀ n rt, labels rt !! target = None →
  labels (BasicInterpreter.build_label_index_from n nodes rt) !! target = None.
Proof.
  induction nodes as [|node nodes IH]; intros Hno n rt Hrt; [exact Hrt|].
  simpl in Hno. apply orb_false_elim in Hno as [Hnode Hrest].
  simpl. apply IH; [exact Hrest|].
  destruct node; try exact Hrt.
  simpl in Hnode. apply bool_decide_eq_false in Hnode.
  simpl. rewrite lookup_insert_ne by exact Hnode. exact Hrt.
Qed.

Lemma build_label_index_absent (script : ScriptNode) (target : string)
    (basic : BasicInterpreter.Interpreter) :
  mentions_label script target = false →
  labels (BasicInterpreter.runtime (BasicInterpreter._build_label_index script basic))
    !! target = None.
Proof.
  intros Hno. unfold BasicInterpreter._build_label_index. simpl.
  apply build_label_index_from_absent; [exact Hno | apply lookup_empty].
Qed.

Lemma basic_jump_to_unknown_label_raises (basic : BasicInterpreter.Interpreter)
    (node : ASTNode) (target : string) :
  labels (BasicInterpreter.runtime basic) !! target = None →
  jumps_to target node (BasicInterpreter.runtime basic) →
  BasicInterpreter._execute_node node basic
  = (Raise (UndefinedLabel target), BasicInterpreter.with_has_jumped false basic).
Proof.
  intros Hnone Hjump.
  assert (Hj : BasicInterpreter.jump target (BasicInterpreter.with_has_jumped false basic)
               = (Raise (UndefinedLabel target), BasicInterpreter.with_has_jumped false basic)).
  { unfold BasicInterpreter.jump, jump_to_label.
    change (BasicInterpreter.runtime (BasicInterpreter.with_has_jumped false basic))
      with (BasicInterpreter.runtime basic).
    rewrite Hnone. reflexivity. }
  destruct Hjump as [->|(var_name & compare_value & -> & Hcmp)];
    unfold BasicInterpreter._execute_node; cbv zeta.
  - exact Hj.
  - change (BasicInterpreter.runtime (BasicInterpreter.with_has_jumped false basic))
      with (BasicInterpreter.runtime basic).
    rewrite Hcmp, bool_decide_eq_true_2 by reflexivity. exact Hj.
Qed.

(** ** Forward jumps and the prescan *)

Lemma define_label_cache (name : string) (n : Z) (it : BetterInterpreter.Interpreter) :
  BetterInterpreter._label_cache (BetterInterpreter._define_label name n it)
  = <[name := n]> (BetterInterpreter._label_cache it).
Proof.
  unfold BetterInterpreter._define_label. case_bool_decide as Hsame.
  - symmetry. apply insert_id. exact Hsame.
  - destruct (BetterInterpreter._pending_gotos _ !! name); reflexivity.
Qed.

(** The prescan loop, started at index [n] on the statements [nodes]: a label
    defined among them ends up located at an index where one of its
    definitions stands, and the other labels keep their entry. *)
Lemma scan_labels_from_spec (name : string) (nodes : list ASTNode) :
  ∀ n it,
    (In (LabelNode name) nodes →
     ∃ j, BetterInterpreter._label_cache (BetterInterpreter.scan_labels_from n nodes it)
            !! name = Some j ∧
          n ≤ j ∧ nodes !! Z.to_nat (j - n) = Some (LabelNode name)) ∧
    (¬ In (LabelNode name) nodes →
     BetterInterpreter._label_cache (BetterInterpreter.scan_labels_from n nodes it) !! name
     = BetterInterpreter._label_cache it !! name).
Proof.
  induction nodes as [|node nodes IH]; intros n it.
  { split; [intros [] | reflexivity]. }
  cbn [BetterInterpreter.scan_labels_from].
  set (it1 := match node with
              | LabelNode label => BetterInterpreter._define_label label n it
              | _ => it
              end).
  destruct (IH (n + 1) it1) as [IHin IHout].
  destruct (in_dec ASTNode_eq_dec (LabelNode name) nodes) as [Hrest|Hrest].
  - split; [|intros Hno; exfalso; apply Hno; right; exact Hrest].
    intros _. destruct (IHin Hrest) as (j & Hj & Hle & Hat).
    exists j. split; [exact Hj|]. split; [lia|].
    replace (Z.to_nat (j - n)) with (S (Z.to_nat (j - (n + 1)))) by lia. exact Hat.
  - rewrite (IHout Hrest). split.
    + intros [->|Hin]; [|contradiction].
      exists n. split; [|split; [lia|]].
      * subst it1. rewrite define_label_cache. apply lookup_insert_eq.
      * replace (Z.to_nat (n - n)) with O by lia. reflexivity.
    + intros Hno. subst it1. destruct node as [label| | | | | | | | |]; try reflexivity.
      rewrite define_label_cache. apply lookup_insert_ne.
      intros ->. apply Hno. left. reflexivity.
Qed.

(** The prescan locates every label the script defines: after
    [_scan_labels] the cache maps it to an index of the script at which a
    definition of it stands (never to the "not located" mark -1, never
    past the end). *)
Lemma scan_labels_locates (script : ScriptNode) (it : BetterInterpreter.Interpreter)
    (name : string) :
  In (LabelNode name) (statements script) →
  ∃ j, BetterInterpreter._label_cache (BetterInterpreter._scan_labels script it) !! name
         = Some j ∧
       0 ≤ j < BetterInterpreter.len script ∧
       getitem (statements script) j = Some (LabelNode name).
Proof.
  intros Hin. unfold BetterInterpreter._scan_labels.
  destruct (proj1 (scan_labels_from_spec name (statements script) 0
                     (BetterInterpreter.with_label_cache ∅ it)) Hin)
    as (j & Hj & Hle & Hat).
  exists j. split; [exact Hj|].
  replace (j - 0) with j in Hat by lia.
  split.
  - apply lookup_lt_Some in Hat. unfold BetterInterpreter.len. lia.
  - unfold getitem. destruct (Z.leb_spec 0 j); [exact Hat | lia].
Qed.

(** A jump to a located label moves the program counter to its definition,
    or to the statement after it when the definition has been executed
    before, and marks the jump as taken. *)
Lemma jump_to_located_label (target : string) (n j : Z) (it : BetterInterpreter.Interpreter) :
  BetterInterpreter._label_cache it !! target = Some j → j ≠ -1 →
  BetterInterpreter._jump_to_label target n it
  = (Ok tt,
     BetterInterpreter.with_has_jumped true
       (BetterInterpreter.with_runtime
          (with_current_line
             (if bool_decide (j ∈ BetterInterpreter._label_statements_processed it)
              then j + 1 else j)
             (BetterInterpreter.runtime it)) it)).
Proof.
  intros Hj Hne. unfold BetterInterpreter._jump_to_label. rewrite Hj.
  rewrite bool_decide_eq_true_2 by exact Hne. reflexivity.
Qed.

Lemma scan_labels_finds_forward_label :
  BetterInterpreter._label_cache (BetterInterpreter._scan_labels forward_goto new_session) !! "L"
  = Some 2.
Proof. reflexivity. Qed.

(** C2: the turn of the controller steps the script without a prescan, so
    the forward [goto L] of [goto L] / [exit] / [L:] / [reply "ok"] is not
    resolved: the first step of a new session raises the undefined-label
    error, the program counter stays on the [goto], and the turn answers with
    the error reply, however many iterations it is given.
    [execute_script], which prescans, runs the same script to the reply
    [ok].  With the label declared first ([labels {L:}]) the jump is skipped
    in both: executing the declaration puts the label back to "not
    located", the [goto] is recorded as pending, and execution falls through
    to [exit]. *)
Theorem forward_goto_without_prescan :
  BetterInterpreter.execute_script_step forward_goto new_session
    = (Raise (UndefinedLabel "L"), new_session) ∧
  (∀ fuel,
     MainController._execute_script (S fuel)
       {| MainController.script_ast := Some forward_goto;
          MainController.interpreter := new_session |}
     = Some ([MainController.error_reply],
             {| MainController.script_ast := Some forward_goto;
                MainController.interpreter := new_session |})) ∧
  fst (BetterInterpreter.execute_script forward_goto new_session) = Ok ["ok"] ∧
  fst (BetterInterpreter.execute_script declared_forward_goto new_session) = Ok [] ∧
  should_exit (BetterInterpreter.runtime
    (snd (BetterInterpreter.execute_script declared_forward_goto new_session))) = true ∧
  BetterInterpreter._pending_gotos
    (snd (BetterInterpreter.execute_script declared_forward_goto new_session)) !! "L"
    = Some [1].
Proof.
  split; [reflexivity|]. split; [intros fuel; reflexivity|].
  repeat split; vm_compute; reflexivity.
Qed.

(** ** Interpolation *)

Lemma resolve_variables_same_in_both (text : string) (rt : RuntimeEnvironment) :
  BasicInterpreter._resolve_variables_in_string text (BasicInterpreter.__init__ rt)
  = BetterInterpreter._resolve_variables_in_string text (BetterInterpreter.__init__ rt).
Proof. reflexivity. Qed.

(** C3: interpolation finds the references with the pattern, but replaces
    each found name wherever it occurs as a substring of the text built so
    far.  With [$a = "X"] and [$ab = "Y"], the template [$a $ab] gives
    [X Xb]: the reference [$ab] does not get its value.  With [$a = "$b"] and
    [$b = "Z"], the template [$a $b] gives [Z Z]: the value put in for [$a] is
    substituted again.  A variable never set does interpolate to the empty
    string. *)
Theorem interpolation_replaces_substrings :
  BetterInterpreter._resolve_variables_in_string "$a $ab" session_a_ab = "X Xb" ∧
  BetterInterpreter._resolve_variables_in_string "$a $b" session_nested = "Z Z" ∧
  BetterInterpreter._resolve_variables_in_string "Hi $name!" new_session = "Hi !" ∧
  BasicInterpreter._resolve_variables_in_string "$a $ab"
    (BasicInterpreter.__init__ (BetterInterpreter.runtime session_a_ab)) = "X Xb".
Proof. repeat split. Qed.

(** ** The step cap *)

Lemma execute_script_while_next (fuel : nat) (script : ScriptNode) (replies : list string)
    (it it1 : BetterInterpreter.Interpreter) (result : option string) :
  (current_line (BetterInterpreter.runtime it) <? BetterInterpreter.len script) = true →
  should_exit (BetterInterpreter.runtime it) = false →
  BetterInterpreter.execute_script_step script it = (Ok result, it1) →
  BetterInterpreter.is_execution_paused it1 = false →
  MainController.execute_script_while (S fuel) script replies it
  = MainController.execute_script_while fuel script (append_if_true result replies) it1.
Proof.
  intros Hlt Hexit Hstep Hpaused. simpl.
  rewrite Hlt, Hexit, Hstep, Hpaused. reflexivity.
Qed.

Lemma execute_script_while_in_loop (fuel : nat) (replies : list string) :
  MainController.execute_script_while fuel goto_loop replies in_loop = None.
Proof.
  induction fuel as [|fuel IH]; [reflexivity|].
  rewrite (execute_script_while_next fuel goto_loop replies in_loop in_loop None);
    [exact IH | reflexivity ..].
Qed.

(** C4: the step cap is part of [execute_script] only.  The turn of the
    controller has no bound: on [loop:] / [goto loop] its loop is still
    running after any number of iterations, so the turn never ends and no
    error is raised.  [execute_script] on the same script stops with the
    possible-infinite-loop error, and on [loop:] / [set $x = "1"] /
    [goto loop] it stops with that error and [$x] keeps its value. *)
Theorem goto_cycle_turn_has_no_cap :
  (∀ fuel,
     MainController._execute_script fuel
       {| MainController.script_ast := Some goto_loop;
          MainController.interpreter := new_session |} = None) ∧
  fst (BetterInterpreter.execute_script goto_loop new_session) = Raise PossibleInfiniteLoop ∧
  fst (BetterInterpreter.execute_script set_loop new_session) = Raise PossibleInfiniteLoop ∧
  variables (BetterInterpreter.runtime
    (snd (BetterInterpreter.execute_script set_loop new_session))) !! "x" = Some (PyStr "1").
Proof.
  split.
  - intros fuel. unfold MainController._execute_script.
    cbn [MainController.script_ast MainController.interpreter].
    destruct fuel as [|[|fuel]]; [reflexivity | reflexivity |].
    rewrite (execute_script_while_next (S fuel) goto_loop []
               (BetterInterpreter.resume_execution new_session)
               (snd (BetterInterpreter.execute_script_step goto_loop new_session)) None);
      [| vm_compute; reflexivity ..].
    rewrite (execute_script_while_next fuel goto_loop _ _ in_loop None);
      [| vm_compute; reflexivity ..].
    rewrite execute_script_while_in_loop. reflexivity.
  - repeat split; vm_compute; reflexivity.
Qed.

(** ** The tokenizer *)

Lemma drop_chars_length (n : nat) (s : string) :
  String.length (Lexer.drop_chars n s) = (String.length s - n)%nat.
Proof.
  revert s. induction n as [|n IH]; intros s; [simpl; lia|].
  destruct s as [|c t]; [reflexivity|]. simpl. apply IH.
Qed.

Lemma skip_comment_length (s : string) :
  (String.length (Lexer.skip_comment s) <= String.length s)%nat.
Proof.
  induction s as [|c t IH]; [reflexivity|].
  simpl. destruct (Ascii.eqb c Lexer.newline); simpl; lia.
Qed.

Lemma match_literal_nonempty (word : string) :
  (0 < String.length word)%nat → nonempty_pattern (Lexer.match_literal word).
Proof.
  intros Hw s text. unfold Lexer.match_literal.
  destruct (String.prefix word s); [|discriminate]. intros [= <-]. exact Hw.
Qed.

Lemma match_string_nonempty : nonempty_pattern Lexer.match_string.
Proof.
  intros [|c t] text; [discriminate|]. simpl.
  destruct (Ascii.eqb c dquote); [|discriminate].
  destruct (Lexer.until_quote t); [|discriminate]. intros [= <-]. simpl. lia.
Qed.

Lemma match_variable_nonempty : nonempty_pattern Lexer.match_variable.
Proof.
  intros [|c [|d t]] text; try discriminate. simpl.
  destruct (_ && _)%bool; [|discriminate]. intros [= <-]. simpl. lia.
Qed.

Lemma match_label_nonempty : nonempty_pattern Lexer.match_label.
Proof.
  intros [|c t] text; [discriminate|]. unfold Lexer.match_label.
  destruct (is_ident_start c); [|discriminate]. cbv zeta.
  destruct (startswith _ _); [|discriminate]. intros [= <-]. simpl. lia.
Qed.

Lemma token_specs_nonempty :
  Forall (fun spec => nonempty_pattern (snd spec)) Lexer.token_specs.
Proof.
  unfold Lexer.token_specs.
  repeat (apply Forall_cons; split;
          [first [ apply match_string_nonempty | apply match_variable_nonempty
                 | apply match_label_nonempty
                 | apply match_literal_nonempty; simpl; lia ] |]).
  apply Forall_nil. exact I.
Qed.

Lemma pattern_match_In (specs : list (Lexer.TokenType * (string -> option string)))
    (s : string) (token_type : Lexer.TokenType) (text : string) :
  Lexer.pattern_match specs s = Some (token_type, text) →
  ∃ pattern, In (token_type, pattern) specs ∧ pattern s = Some text.
Proof.
  induction specs as [|[name pattern] specs IH]; [discriminate|].
  simpl. destruct (pattern s) as [matched|] eqn:E.
  - intros [= <- <-]. exists pattern. split; [left; reflexivity | exact E].
  - intros H. destruct (IH H) as (q & Hin & Hq). exists q. split; [right|]; assumption.
Qed.

Lemma pattern_match_nonempty (s : string) (token_type : Lexer.TokenType) (text : string) :
  Lexer.pattern_match Lexer.token_specs s = Some (token_type, text) →
  (0 < String.length text)%nat.
Proof.
  intros H. destruct (pattern_match_In _ _ _ _ H) as (pattern & Hin & Hp).
  pose proof token_specs_nonempty as Hall.
  rewrite List.Forall_forall in Hall. exact (Hall _ Hin s text Hp).
Qed.

(** [tokenize] is total: the loop ends within [len(source)] iterations, with
    the tokens or with the error of an unknown character. *)
Lemma tokenize_while_total (fuel : nat) :
  ∀ rest line column tokens,
    (String.length rest <= fuel)%nat →
    is_Some (Lexer.tokenize_while fuel rest line column tokens).
Proof.
  induction fuel as [|fuel IH]; intros rest line column tokens Hlen.
  - destruct rest; [eexists; reflexivity | simpl in Hlen; lia].
  - destruct rest as [|c t]; [eexists; reflexivity|].
    simpl in Hlen. cbn [Lexer.tokenize_while].
    destruct (_ || _)%bool; [apply IH; lia|].
    destruct (Ascii.eqb c "#") eqn:Hc.
    { apply IH. apply Ascii.eqb_eq in Hc. subst c. simpl.
      pose proof (skip_comment_length t). lia. }
    destruct (Lexer.pattern_match _ _) as [[token_type text]|] eqn:Hm;
      [|eexists; reflexivity].
    apply pattern_match_nonempty in Hm.
    assert (Hrest : (String.length
              (Lexer.drop_chars (String.length text) (String c t)) <= fuel)%nat)
      by (rewrite drop_chars_length; simpl; lia).
    destruct token_type; apply IH, Hrest.
Qed.

Lemma tokenize_total (source : string) : is_Some (Lexer.tokenize source).
Proof. apply tokenize_while_total. lia. Qed.

Lemma ident_char_not_newline (c : ascii) :
  is_ident_char c = true → Ascii.eqb Lexer.newline c = false.
Proof.
  intros H. destruct (Ascii.eqb_spec Lexer.newline c) as [<-|]; [discriminate H | reflexivity].
Qed.

Lemma ident_chars_one_line (s : string) :
  contains_char Lexer.newline (Lexer.ident_chars s) = false.
Proof.
  induction s as [|c t IH]; [reflexivity|].
  simpl. destruct (is_ident_char c) eqn:Hc; [|reflexivity].
  cbn [contains_char]. rewrite (ident_char_not_newline c Hc). exact IH.
Qed.

Lemma drop_last_snoc (s : string) (c : ascii) :
  drop_last (s ++ String c EmptyString) = s.
Proof.
  induction s as [|d t IH]; [reflexivity|].
  simpl. rewrite IH. destruct t; reflexivity.
Qed.

Lemma match_literal_one_line (token_type : Lexer.TokenType) (word : string) :
  contains_char Lexer.newline (Lexer.strip_delimiters token_type word) = false →
  one_line_spec (token_type, Lexer.match_literal word).
Proof.
  intros Hw _ _ s text. unfold Lexer.match_literal. simpl.
  destruct (String.prefix word s); [|discriminate]. intros [= <-]. exact Hw.
Qed.

Lemma match_variable_one_line : one_line_spec (Lexer.VARIABLE, Lexer.match_variable).
Proof.
  intros _ _ [|c [|d t]] text; try discriminate. simpl.
  destruct (Ascii.eqb c "$") eqn:Hc; [|discriminate].
  destruct (is_ident_start d) eqn:Hd; [|discriminate]. simpl.
  intros [= <-]. apply Ascii.eqb_eq in Hc. subst c.
  unfold Lexer.strip_delimiters. cbn [contains_char].
  rewrite (ident_char_not_newline d) by (unfold is_ident_char; rewrite Hd; reflexivity).
  apply ident_chars_one_line.
Qed.

Lemma match_label_one_line : one_line_spec (Lexer.LABEL, Lexer.match_label).
Proof.
  intros _ _ [|c t] text; [discriminate|]. unfold Lexer.match_label. simpl snd.
  destruct (is_ident_start c) eqn:Hc; [|discriminate]. cbv zeta.
  destruct (startswith _ _); [|discriminate]. intros [= <-].
  simpl fst. unfold Lexer.strip_delimiters. rewrite drop_last_snoc.
  cbn [contains_char].
  rewrite (ident_char_not_newline c) by (unfold is_ident_char; rewrite Hc; reflexivity).
  apply ident_chars_one_line.
Qed.

Lemma token_specs_one_line : Forall one_line_spec Lexer.token_specs.
Proof.
  unfold Lexer.token_specs.
  repeat (apply Forall_cons; split;
          [first [ apply match_variable_one_line | apply match_label_one_line
                 | (intros H; exfalso; apply H; reflexivity)
                 | (intros _ H; exfalso; apply H; reflexivity)
                 | apply match_literal_one_line; reflexivity ] |]).
  apply Forall_nil. exact I.
Qed.

Lemma pattern_match_one_line (s : string) (token_type : Lexer.TokenType) (text : string)
    (line column : Z) :
  Lexer.pattern_match Lexer.token_specs s = Some (token_type, text) →
  on_one_line {| Lexer.type := token_type;
                 Lexer.value := Lexer.strip_delimiters token_type text;
                 Lexer.line := line; Lexer.column := column |}.
Proof.
  intros H Hs Hn. destruct (pattern_match_In _ _ _ _ H) as (pattern & Hin & Hp).
  pose proof token_specs_one_line as Hall.
  rewrite List.Forall_forall in Hall.
  exact (Hall _ Hin Hs Hn s text Hp).
Qed.

(** Apart from string literals, the tokens of a tokenized source stay on one
    line: only a [STRING] token and the [NEWLINE] tokens themselves have a
    newline in their text. *)
Lemma tokenize_while_one_line (fuel : nat) :
  ∀ rest line column tokens result,
    Forall on_one_line tokens →
    Lexer.tokenize_while fuel rest line column tokens = Some (Ok result) →
    Forall on_one_line result.
Proof.
  induction fuel as [|fuel IH]; intros rest line column tokens result Htok Hres.
  - destruct rest; [|discriminate].
    simpl in Hres. injection Hres as <-.
    apply Forall_app. split; [exact Htok|]. repeat constructor.
  - destruct rest as [|c t].
    { simpl in Hres. injection Hres as <-.
      apply Forall_app. split; [exact Htok|]. repeat constructor. }
    cbn [Lexer.tokenize_while] in Hres.
    destruct (_ || _)%bool; [eapply IH; eassumption|].
    destruct (Ascii.eqb c "#"); [eapply IH; eassumption|].
    destruct (Lexer.pattern_match _ _) as [[token_type text]|] eqn:Hm; [|discriminate].
    pose proof (pattern_match_one_line _ _ _ line column Hm) as Hone.
    assert (Hall : Forall on_one_line
              (tokens ++ [{| Lexer.type := token_type;
                             Lexer.value := Lexer.strip_delimiters token_type text;
                             Lexer.line := line; Lexer.column := column |}]))
      by (apply Forall_app; split; [exact Htok | repeat constructor; exact Hone]).
    destruct token_type; eapply IH; eassumption.
Qed.

Lemma tokenize_one_line (source : string) (tokens : list Lexer.Token) :
  Lexer.tokenize source = Some (Ok tokens) → Forall on_one_line tokens.
Proof. apply tokenize_while_one_line. constructor. Qed.

(** C8: the pattern of a string literal takes every character but the
    double quote, the newline too.  The source [reply "a<newline>b"] is
    tokenized without an error into [REPLY], one [STRING] token whose text
    holds the newline, and [EOF]; no [NEWLINE] token is produced and the line
    counter still says 1 at the end. *)
Theorem string_literal_spans_newline :
  Lexer.tokenize two_line_string
  = Some (Ok [ {| Lexer.type := Lexer.REPLY; Lexer.value := "reply";
                  Lexer.line := 1; Lexer.column := 1 |};
               {| Lexer.type := Lexer.STRING;
                  Lexer.value := "a" ++ String Lexer.newline "b";
                  Lexer.line := 1; Lexer.column := 6 |};
               {| Lexer.type := Lexer.EOF; Lexer.value := "";
                  Lexer.line := 1; Lexer.column := 9 |} ]) ∧
  Lexer.spans_newline
    {| Lexer.type := Lexer.STRING; Lexer.value := "a" ++ String Lexer.newline "b";
       Lexer.line := 1; Lexer.column := 6 |} = true.
Proof. split; reflexivity. Qed.

(** * Further properties of the code *)

Import Grammar Templates.

(** ** The tokenizer *)

Lemma token_specs_no_EOF (pattern : string -> option string) :
  ¬ In (Lexer.EOF, pattern) Lexer.token_specs.
Proof.
  unfold Lexer.token_specs. simpl.
  intros H. repeat (destruct H as [H|H]; [discriminate H|]). exact H.
Qed.

Lemma tokenize_while_ends_with_EOF (fuel : nat) :
  ∀ rest line column tokens result,
    Forall (fun t => Lexer.type t ≠ Lexer.EOF) tokens →
    Lexer.tokenize_while fuel rest line column tokens = Some (Ok result) →
    ∃ body last,
      result = (body ++ [last])%list ∧ Lexer.type last = Lexer.EOF ∧
      Lexer.value last = EmptyString ∧
      Forall (fun t => Lexer.type t ≠ Lexer.EOF) body.
Proof.
  induction fuel as [|fuel IH]; intros rest line column tokens result Htok Hres.
  - destruct rest; [|discriminate]. simpl in Hres. injection Hres as <-.
    eexists tokens, _. repeat split. exact Htok.
  - destruct rest as [|c t].
    { simpl in Hres. injection Hres as <-. eexists tokens, _. repeat split. exact Htok. }
    cbn [Lexer.tokenize_while] in Hres.
    destruct (_ || _)%bool; [eapply IH; eassumption|].
    destruct (Ascii.eqb c "#"); [eapply IH; eassumption|].
    destruct (Lexer.pattern_match _ _) as [[token_type text]|] eqn:Hm; [|discriminate].
    destruct (pattern_match_In _ _ _ _ Hm) as (pattern & Hin & _).
    assert (Hne : token_type ≠ Lexer.EOF)
      by (intros ->; exact (token_specs_no_EOF pattern Hin)).
    assert (Hall : Forall (fun t => Lexer.type t ≠ Lexer.EOF)
              (tokens ++ [{| Lexer.type := token_type;
                             Lexer.value := Lexer.strip_delimiters token_type text;
                             Lexer.line := line; Lexer.column := column |}]))
      by (apply Forall_app; split; [exact Htok | repeat constructor; exact Hne]).
    destruct token_type; eapply IH; eassumption.
Qed.

(** X1: the tokens of a source that tokenizes end with one end-of-input
    token, with empty text, and no token before it is an end-of-input
    token. *)
Theorem tokenize_ends_with_EOF (source : string) (tokens : list Lexer.Token) :
  Lexer.tokenize source = Some (Ok tokens) →
  ∃ body last,
    tokens = (body ++ [last])%list ∧ Lexer.type last = Lexer.EOF ∧
    Lexer.value last = EmptyString ∧
    Forall (fun t => Lexer.type t ≠ Lexer.EOF) body.
Proof. apply tokenize_while_ends_with_EOF. constructor. Qed.

Lemma tokenize_ends_with_EOF_witness :
  ∃ body last,
    [ {| Lexer.type := Lexer.EXIT; Lexer.value := "exit"; Lexer.line := 1; Lexer.column := 1 |};
      {| Lexer.type := Lexer.EOF; Lexer.value := ""; Lexer.line := 1; Lexer.column := 5 |} ]
    = (body ++ [last])%list ∧ Lexer.type last = Lexer.EOF ∧
    Lexer.value last = EmptyString ∧
    Forall (fun t => Lexer.type t ≠ Lexer.EOF) body.
Proof. apply (tokenize_ends_with_EOF "exit"). reflexivity. Defined.

(** X2: the loop of [tokenize] always ends: every source gives the tokens or
    the error of an unknown character within [len(source)] iterations. *)
Theorem tokenize_terminates (source : string) :
  (∃ tokens, Lexer.tokenize source = Some (Ok tokens)) ∨
  (∃ line column c, Lexer.tokenize source = Some (Raise (SyntaxError line column c))).
Proof.
  destruct (tokenize_total source) as [[tokens|e] H]; [left; eauto|].
  right. unfold Lexer.tokenize in H.
  assert (Herr : ∀ fuel rest line column tokens e,
            Lexer.tokenize_while fuel rest line column tokens = Some (Raise e) →
            ∃ l c ch, e = SyntaxError l c ch).
  { clear. induction fuel as [|fuel IH]; intros rest line column tokens e Hres.
    - destruct rest; discriminate.
    - destruct rest as [|c t]; [discriminate|].
      cbn [Lexer.tokenize_while] in Hres.
      destruct (_ || _)%bool; [eapply IH; eassumption|].
      destruct (Ascii.eqb c "#"); [eapply IH; eassumption|].
      destruct (Lexer.pattern_match _ _) as [[token_type text]|].
      + destruct token_type; eapply IH; eassumption.
      + injection Hres as <-. eauto. }
  destruct (Herr _ _ _ _ _ _ H) as (l & c & ch & ->). unfold Lexer.tokenize. eauto.
Qed.

(** X3: in the tokens of a source only string literals and the [NEWLINE]
    tokens hold a newline: the text of every other token is on one line. *)
Theorem tokens_on_one_line (source : string) (tokens : list Lexer.Token) :
  Lexer.tokenize source = Some (Ok tokens) →
  ∀ t, In t tokens → Lexer.type t ≠ Lexer.STRING → Lexer.type t ≠ Lexer.NEWLINE →
       contains_char Lexer.newline (Lexer.value t) = false.
Proof.
  intros H t Hin. pose proof (tokenize_one_line source tokens H) as Hall.
  rewrite List.Forall_forall in Hall. exact (Hall t Hin).
Qed.

Lemma tokens_on_one_line_witness :
  contains_char Lexer.newline "exit" = false.
Proof.
  apply (tokens_on_one_line "exit" _ eq_refl
           {| Lexer.type := Lexer.EXIT; Lexer.value := "exit";
              Lexer.line := 1; Lexer.column := 1 |}).
  - left. reflexivity.
  - discriminate.
  - discriminate.
Defined.

Lemma lines_counted_app (first_line : Z) (a b : list Lexer.Token) :
  lines_counted first_line a → lines_counted (first_line + newlines a) b →
  lines_counted first_line (a ++ b).
Proof.
  revert first_line. induction a as [|t a IH]; intros first_line Ha Hb.
  - simpl in *. replace (first_line + 0) with first_line in Hb by lia. exact Hb.
  - destruct Ha as [Ht Ha]. split; [exact Ht|]. apply IH; [exact Ha|].
    cbn [newlines] in Hb.
    destruct (bool_decide (Lexer.type t = Lexer.NEWLINE));
      [replace (first_line + 1 + newlines a) with (first_line + (1 + newlines a)) by lia
      |replace (first_line + newlines a) with (first_line + (0 + newlines a)) by lia];
      exact Hb.
Qed.

Lemma newlines_snoc (tokens : list Lexer.Token) (t : Lexer.Token) :
  newlines (tokens ++ [t])
  = newlines tokens + (if bool_decide (Lexer.type t = Lexer.NEWLINE) then 1 else 0).
Proof.
  induction tokens as [|u tokens IH]; simpl; [lia|]. rewrite IH. lia.
Qed.

Lemma tokenize_while_lines (fuel : nat) :
  ∀ rest line column tokens result,
    lines_counted 1 tokens → line = 1 + newlines tokens →
    Lexer.tokenize_while fuel rest line column tokens = Some (Ok result) →
    lines_counted 1 result.
Proof.
  assert (Hend : ∀ tokens line column,
            lines_counted 1 tokens → line = 1 + newlines tokens →
            lines_counted 1
              (tokens ++ [{| Lexer.type := Lexer.EOF; Lexer.value := "";
                             Lexer.line := line; Lexer.column := column |}])).
  { intros tokens line column Htok Hline. apply lines_counted_app; [exact Htok|].
    simpl. split; [exact Hline | exact I]. }
  induction fuel as [|fuel IH]; intros rest line column tokens result Htok Hline Hres.
  - destruct rest; [|discriminate]. simpl in Hres. injection Hres as <-. auto.
  - destruct rest as [|c t].
    { simpl in Hres. injection Hres as <-. auto. }
    cbn [Lexer.tokenize_while] in Hres.
    destruct (_ || _)%bool; [eapply IH; eassumption|].
    destruct (Ascii.eqb c "#"); [eapply IH; eassumption|].
    destruct (Lexer.pattern_match _ _) as [[token_type text]|] eqn:Hm; [|discriminate].
    assert (Hall : lines_counted 1
              (tokens ++ [{| Lexer.type := token_type;
                             Lexer.value := Lexer.strip_delimiters token_type text;
                             Lexer.line := line; Lexer.column := column |}])).
    { apply lines_counted_app; [exact Htok|].
      simpl. split; [exact Hline | exact I]. }
    destruct token_type;
      (eapply IH; [exact Hall | | exact Hres]);
      rewrite newlines_snoc; simpl; lia.
Qed.

(** X4: the line recorded in a token is one more than the number of
    [NEWLINE] tokens before it.  (A newline inside a string literal is not
    counted.) *)
Theorem token_lines_count_newline_tokens (source : string) (tokens : list Lexer.Token) :
  Lexer.tokenize source = Some (Ok tokens) → lines_counted 1 tokens.
Proof.
  intros H. eapply tokenize_while_lines; [| |exact H]; [exact I | reflexivity].
Qed.

Lemma token_lines_count_newline_tokens_witness :
  lines_counted 1
    [ {| Lexer.type := Lexer.EXIT; Lexer.value := "exit"; Lexer.line := 1; Lexer.column := 1 |};
      {| Lexer.type := Lexer.EOF; Lexer.value := ""; Lexer.line := 1; Lexer.column := 5 |} ].
Proof. apply (token_lines_count_newline_tokens "exit"). reflexivity. Defined.

Lemma tokenize_while_more_fuel (fuel : nat) :
  ∀ rest line column tokens r,
    Lexer.tokenize_while fuel rest line column tokens = Some r →
    ∀ fuel', (fuel <= fuel')%nat →
    Lexer.tokenize_while fuel' rest line column tokens = Some r.
Proof.
  induction fuel as [|fuel IH]; intros rest line column tokens r Hres fuel' Hle.
  - destruct rest; [|discriminate]. destruct fuel'; exact Hres.
  - destruct rest as [|c t]; [destruct fuel'; exact Hres|].
    destruct fuel' as [|fuel']; [lia|].
    cbn [Lexer.tokenize_while] in Hres |- *.
    destruct (_ || _)%bool; [apply (IH _ _ _ _ _ Hres); lia|].
    destruct (Ascii.eqb c "#"); [apply (IH _ _ _ _ _ Hres); lia|].
    destruct (Lexer.pattern_match _ _) as [[token_type text]|]; [|exact Hres].
    destruct token_type; apply (IH _ _ _ _ _ Hres); lia.
Qed.

Lemma tokenize_while_enough_fuel (fuel : nat) (rest : string) (line column : Z)
    (tokens : list Lexer.Token) :
  (String.length rest <= fuel)%nat →
  Lexer.tokenize_while fuel rest line column tokens
  = Lexer.tokenize_while (String.length rest) rest line column tokens.
Proof.
  intros Hle.
  destruct (tokenize_while_total (String.length rest) rest line column tokens (le_n _))
    as [r Hr].
  rewrite Hr. exact (tokenize_while_more_fuel _ _ _ _ _ _ Hr fuel Hle).
Qed.

Lemma skip_comment_to_newline (text rest : string) :
  contains_char Lexer.newline text = false →
  Lexer.skip_comment (text ++ String Lexer.newline rest) = String Lexer.newline rest.
Proof.
  induction text as [|c t IH]; intros Hno; [reflexivity|].
  cbn [contains_char] in Hno. apply orb_false_elim in Hno as [Hc Ht].
  change (Lexer.skip_comment (String c t ++ String Lexer.newline rest))
    with (if Ascii.eqb c Lexer.newline then String c (t ++ String Lexer.newline rest)
          else Lexer.skip_comment (t ++ String Lexer.newline rest)).
  rewrite Ascii.eqb_sym in Hc. rewrite Hc. apply IH, Ht.
Qed.

Lemma skip_comment_to_end (text : string) :
  contains_char Lexer.newline text = false → Lexer.skip_comment text = EmptyString.
Proof.
  induction text as [|c t IH]; intros Hno; [reflexivity|].
  cbn [contains_char] in Hno. apply orb_false_elim in Hno as [Hc Ht].
  change (Lexer.skip_comment (String c t))
    with (if Ascii.eqb c Lexer.newline then String c t else Lexer.skip_comment t).
  rewrite Ascii.eqb_sym in Hc. rewrite Hc. apply IH, Ht.
Qed.

Lemma length_append (a b : string) :
  String.length (a ++ b) = (String.length a + String.length b)%nat.
Proof. induction a as [|c a IH]; simpl; [reflexivity | rewrite IH; reflexivity]. Qed.

(** X5: blanks and comments leave no trace in the tokens.  A space or a tab in
    front of a source, and a comment (from [#] to the end of its line, or
    to the end of the source) in front of it, give the tokens of the rest
    of the source, with the same lines and even the same columns. *)
Theorem blanks_and_comments_are_skipped (text rest : string) :
  contains_char Lexer.newline text = false →
  Lexer.tokenize (String " " rest) = Lexer.tokenize rest ∧
  Lexer.tokenize (String "009" rest) = Lexer.tokenize rest ∧
  Lexer.tokenize (String "#" (text ++ String Lexer.newline rest))
    = Lexer.tokenize (String Lexer.newline rest) ∧
  Lexer.tokenize (String "#" text) = Lexer.tokenize EmptyString.
Proof.
  intros Hno. split; [reflexivity|]. split; [reflexivity|]. split.
  - unfold Lexer.tokenize. cbn [String.length Lexer.tokenize_while].
    change (Ascii.eqb "#" " " || Ascii.eqb "#" "009")%bool with false.
    change (Ascii.eqb "#" "#") with true. cbv iota.
    change (Lexer.skip_comment (String "#" (text ++ String Lexer.newline rest)))
      with (Lexer.skip_comment (text ++ String Lexer.newline rest)).
    rewrite (skip_comment_to_newline text rest Hno).
    apply tokenize_while_enough_fuel. rewrite length_append. simpl. lia.
  - unfold Lexer.tokenize. cbn [String.length Lexer.tokenize_while].
    change (Ascii.eqb "#" " " || Ascii.eqb "#" "009")%bool with false.
    change (Ascii.eqb "#" "#") with true. cbv iota.
    change (Lexer.skip_comment (String "#" text)) with (Lexer.skip_comment text).
    rewrite (skip_comment_to_end text Hno).
    destruct (String.length text); reflexivity.
Qed.

Lemma blanks_and_comments_are_skipped_witness :
  Lexer.tokenize (String "#" ("note" ++ String Lexer.newline "exit"))
  = Lexer.tokenize (String Lexer.newline "exit").
Proof.
  exact (proj1 (proj2 (proj2 (blanks_and_comments_are_skipped "note" "exit" eq_refl)))).
Defined.

(** ** The parser *)

Lemma eat_inv (kind : Lexer.TokenType) (tokens rest : list Lexer.Token) (t : Lexer.Token) :
  Parser.eat kind tokens = Parser.Done t rest → tokens = t :: rest ∧ Lexer.type t = kind.
Proof.
  destruct tokens as [|u tokens]; [discriminate|]. simpl.
  case_bool_decide; [|discriminate]. intros [= <- <-]. split; [reflexivity | assumption].
Qed.

Lemma eat_same (kind : Lexer.TokenType) (t : Lexer.Token) (rest : list Lexer.Token) :
  Lexer.type t = kind → Parser.eat kind (t :: rest) = Parser.Done t rest.
Proof. intros H. simpl. rewrite bool_decide_eq_true_2 by exact H. reflexivity. Qed.

Lemma parse_items_length (kind : Lexer.TokenType) (tokens : list Lexer.Token) :
  (length (snd (Parser.parse_items kind tokens)) <= length tokens)%nat.
Proof.
  remember (length tokens) as n eqn:Hn. revert tokens Hn.
  induction n as [n IH] using lt_wf_ind. intros tokens ->.
  destruct tokens as [|item [|comma rest]]; simpl; [lia | case_bool_decide; simpl; lia |].
  case_bool_decide; [|simpl; lia].
  case_bool_decide; [|simpl; lia].
  pose proof (IH (length rest) ltac:(simpl; lia) rest eq_refl) as Hrest.
  destruct (Parser.parse_items kind rest) as [names left]. simpl in *. lia.
Qed.

(** Splits a hypothesis on a chain of [eat] calls at its first call. *)
Ltac eat_first H :=
  match type of H with
  | context [Parser.eat ?kind ?tokens] =>
      let E := fresh "E" in
      destruct (Parser.eat kind tokens) as [? ?|?] eqn:E; [|discriminate H];
      apply eat_inv in E as [-> ?]
  end.

Lemma parse_statement_consumes (tokens rest : list Lexer.Token) (node : ASTNode) :
  Parser.parse_statement tokens = Parser.Done (Some node) rest →
  (length rest < length tokens)%nat ∧ is_statement node = true.
Proof.
  destruct tokens as [|token tokens]; [discriminate|].
  unfold Parser.parse_statement.
  destruct (Lexer.type token) eqn:Hty; try discriminate;
    unfold Parser.parse_reply, Parser.parse_set, Parser.parse_get_intent, Parser.parse_if,
      Parser.parse_goto, Parser.parse_exit, Parser.parse_label, Parser.parse_intents;
    intros H; repeat eat_first H;
    try match type of H with
        | context [match ?l with [] => _ | _ :: _ => _ end] =>
            destruct l as [|value_token rest']; [discriminate|];
            destruct (Lexer.type value_token); try discriminate
        end;
    try match type of H with
        | context [Parser.parse_items ?kind ?l] =>
            pose proof (parse_items_length kind l);
            destruct (Parser.parse_items kind l) as [names left];
            eat_first H
        end;
    injection H as <- <-; simpl in *; (split; [lia | reflexivity]).
Qed.

Lemma parse_label_declarations_shape (tokens rest : list Lexer.Token) (node : ASTNode) :
  Parser.parse_label_declarations tokens = Parser.Done node rest →
  (length rest < length tokens)%nat ∧ ∃ label_names, node = LabelDeclarationsNode label_names.
Proof.
  unfold Parser.parse_label_declarations. intros H. repeat eat_first H.
  match type of H with
  | context [Parser.parse_items ?kind ?l] =>
      pose proof (parse_items_length kind l);
      destruct (Parser.parse_items kind l) as [names left]
  end.
  eat_first H. injection H as <- <-. simpl in *. split; [lia | eauto].
Qed.

Lemma parse_statement_some (token : Lexer.Token) (tokens rest : list Lexer.Token) :
  Parser.parse_statement (token :: tokens) ≠ Parser.Done None rest.
Proof.
  unfold Parser.parse_statement. cbv zeta.
  match goal with
  | |- match ?x with Parser.Done _ _ => _ | Parser.Fail _ => _ end ≠ _ => destruct x; discriminate
  end.
Qed.

Lemma parse_while_total (fuel : nat) :
  ∀ tokens statements,
    (length tokens <= fuel)%nat → is_Some (Parser.parse_while fuel tokens statements).
Proof.
  induction fuel as [|fuel IH]; intros tokens statements Hlen.
  - destruct tokens; [eexists; reflexivity | simpl in Hlen; lia].
  - destruct tokens as [|token rest]; [eexists; reflexivity|].
    simpl in Hlen. cbn [Parser.parse_while].
    case_bool_decide; [eexists; reflexivity|].
    case_bool_decide; [apply IH; lia|].
    destruct (Parser.parse_statement (token :: rest)) as [[node|] rest1|e] eqn:Hs;
      [| |eexists; reflexivity].
    + apply parse_statement_consumes in Hs as [Hshort _]. simpl in Hshort.
      destruct rest1 as [|next rest2]; [apply IH; simpl; lia|].
      simpl in Hshort. case_bool_decide; apply IH; simpl; lia.
    + exfalso. exact (parse_statement_some _ _ _ Hs).
Qed.

Lemma parse_total (tokens : list Lexer.Token) : is_Some (Parser.parse tokens).
Proof.
  unfold Parser.parse. destruct tokens as [|token rest]; [eexists; reflexivity|].
  case_bool_decide.
  - destruct (Parser.parse_label_declarations (token :: rest)) as [decl left|e];
      [|eexists; reflexivity].
    destruct (parse_while_total (length left) left [decl] (le_n _)) as [[statements r|e] ->];
      eexists; reflexivity.
  - destruct (parse_while_total (length (token :: rest)) (token :: rest) [] (le_n _))
      as [[statements r|e] ->]; eexists; reflexivity.
Qed.

(** X6: loading a script always ends: for every text the lexer and then the
    parser come to an end, with the script, with the error of the lexer or
    with the error of the parser. *)
Theorem load_script_terminates (script_content : string) :
  ∃ outcome, Loader.load_script_from_string script_content = Some outcome.
Proof.
  unfold Loader.load_script_from_string.
  destruct (tokenize_total script_content) as [[tokens|e] ->]; [|eauto].
  destruct (parse_total tokens) as [[script rest|e] ->]; eauto.
Qed.

Lemma parse_while_statements (fuel : nat) :
  ∀ tokens statements result rest,
    Parser.parse_while fuel tokens statements = Some (Parser.Done result rest) →
    ∃ body, result = (statements ++ body)%list ∧ Forall (fun node => is_statement node = true) body.
Proof.
  induction fuel as [|fuel IH]; intros tokens statements result rest Hres.
  - destruct tokens as [|token tokens]; simpl in Hres.
    + injection Hres as <- <-. exists []. rewrite app_nil_r. split; [reflexivity | constructor].
    + case_bool_decide; [|discriminate]. injection Hres as <- <-.
      exists []. rewrite app_nil_r. split; [reflexivity | constructor].
  - destruct tokens as [|token tokens]; cbn [Parser.parse_while] in Hres.
    { injection Hres as <- <-. exists []. rewrite app_nil_r. split; [reflexivity | constructor]. }
    case_bool_decide.
    { injection Hres as <- <-. exists []. rewrite app_nil_r. split; [reflexivity | constructor]. }
    case_bool_decide; [exact (IH _ _ _ _ Hres)|].
    destruct (Parser.parse_statement (token :: tokens)) as [[node|] rest1|e] eqn:Hs;
      [| exfalso; exact (parse_statement_some _ _ _ Hs) | discriminate Hres].
    apply parse_statement_consumes in Hs as [_ Hnode].
    assert (Hnext : ∃ tokens1,
              Parser.parse_while fuel tokens1 (statements ++ [node])
              = Some (Parser.Done result rest)).
    { destruct rest1 as [|next rest2]; [eauto|]. case_bool_decide; eauto. }
    destruct Hnext as [tokens1 Hnext].
    destruct (IH _ _ _ _ Hnext) as (body & -> & Hbody).
    exists (node :: body). rewrite <- app_assoc. split; [reflexivity|].
    constructor; assumption.
Qed.

Lemma parsed_script_shape_aux (tokens rest : list Lexer.Token) (script : ScriptNode) :
  Parser.parse tokens = Some (Parser.Done script rest) →
  Forall (fun node => node ≠ PauseForInputNode) (statements script).
Proof.
  unfold Parser.parse. destruct tokens as [|token tokens]; [discriminate|].
  assert (Hweak : ∀ body, Forall (fun node => is_statement node = true) body →
                          Forall (fun node => node ≠ PauseForInputNode) body).
  { intros body Hb. eapply Forall_impl; [exact Hb|]. intros node Hn ->. discriminate Hn. }
  case_bool_decide.
  - destruct (Parser.parse_label_declarations (token :: tokens)) as [decl left|e] eqn:Hd;
      [|discriminate].
    apply parse_label_declarations_shape in Hd as [_ [label_names ->]].
    destruct (Parser.parse_while _ _ _) as [[result r|e]|] eqn:Hw; try discriminate.
    intros [= <- <-]. destruct (parse_while_statements _ _ _ _ _ Hw) as (body & -> & Hbody).
    simpl. constructor; [discriminate | apply Hweak, Hbody].
  - destruct (Parser.parse_while _ _ _) as [[result r|e]|] eqn:Hw; try discriminate.
    intros [= <- <-]. destruct (parse_while_statements _ _ _ _ _ Hw) as (body & -> & Hbody).
    simpl. apply Hweak, Hbody.
Qed.

(** X7: the statements of a parsed script are label declarations at the very
    start, if any, and after them only statements of the eight kinds the
    grammar has; no label declaration stands later in the script and no
    pause-for-input node is ever built. *)
Theorem parsed_script_shape (tokens rest : list Lexer.Token) (script : ScriptNode) :
  Parser.parse tokens = Some (Parser.Done script rest) →
  ∃ header body,
    statements script = (header_nodes header ++ body)%list ∧
    Forall (fun node => is_statement node = true) body.
Proof.
  unfold Parser.parse. destruct tokens as [|token tokens]; [discriminate|].
  case_bool_decide.
  - destruct (Parser.parse_label_declarations (token :: tokens)) as [decl left|e] eqn:Hd;
      [|discriminate].
    apply parse_label_declarations_shape in Hd as [_ [label_names ->]].
    destruct (Parser.parse_while _ _ _) as [[result r|e]|] eqn:Hw; try discriminate.
    intros [= <- <-]. destruct (parse_while_statements _ _ _ _ _ Hw) as (body & -> & Hbody).
    exists (Some label_names), body. split; [reflexivity | exact Hbody].
  - destruct (Parser.parse_while _ _ _) as [[result r|e]|] eqn:Hw; try discriminate.
    intros [= <- <-]. destruct (parse_while_statements _ _ _ _ _ Hw) as (body & -> & Hbody).
    exists None, body. split; [reflexivity | exact Hbody].
Qed.

Lemma parsed_script_shape_witness :
  ∃ header body,
    [ExitNode] = (header_nodes header ++ body)%list ∧
    Forall (fun node => is_statement node = true) body.
Proof.
  apply (parsed_script_shape
           [ {| Lexer.type := Lexer.EXIT; Lexer.value := "exit";
                Lexer.line := 1; Lexer.column := 1 |};
             {| Lexer.type := Lexer.EOF; Lexer.value := "";
                Lexer.line := 1; Lexer.column := 5 |} ]
           [ {| Lexer.type := Lexer.EOF; Lexer.value := "";
                Lexer.line := 1; Lexer.column := 5 |} ]
           {| statements := [ExitNode] |}).
  reflexivity.
Defined.

Lemma execute_node_unknown (node : ASTNode) (n : Z) (it : BetterInterpreter.Interpreter) :
  fst (BetterInterpreter._execute_node node n it) = Raise UnknownNodeType →
  node = PauseForInputNode.
Proof.
  unfold BetterInterpreter._execute_node. cbv zeta.
  destruct node; try discriminate; try reflexivity.
  - destruct (startswith value "$"); [|discriminate].
    destruct (get_variable value PyNone _); discriminate.
  - case_bool_decide; [|discriminate].
    unfold BetterInterpreter._jump_to_label.
    destruct (BetterInterpreter._label_cache _ !! target_label); [|discriminate].
    case_bool_decide; discriminate.
  - unfold BetterInterpreter._jump_to_label.
    destruct (BetterInterpreter._label_cache _ !! target_label); [|discriminate].
    case_bool_decide; discriminate.
Qed.

(** X8: the stepping interpreter knows every statement the parser builds: on
    a parsed script no step raises the unknown-node-type error, in any
    state. *)
Theorem parsed_script_has_no_unknown_node
    (tokens rest : list Lexer.Token) (script : ScriptNode) (it : BetterInterpreter.Interpreter) :
  Parser.parse tokens = Some (Parser.Done script rest) →
  fst (BetterInterpreter.execute_script_step script it) ≠ Raise UnknownNodeType.
Proof.
  intros Hparse Hraise.
  pose proof (parsed_script_shape_aux tokens rest script Hparse) as Hall.
  unfold BetterInterpreter.execute_script_step in Hraise.
  destruct (BetterInterpreter.len script <=? _); [discriminate|].
  destruct (getitem _ _) as [node|] eqn:Hnode; [|discriminate].
  apply getitem_In in Hnode.
  destruct (BetterInterpreter._execute_node node _ it) as [[result|e] it1] eqn:He;
    [discriminate|].
  simpl in Hraise. injection Hraise as ->.
  assert (node = PauseForInputNode) as -> by (eapply execute_node_unknown; rewrite He; reflexivity).
  rewrite List.Forall_forall in Hall. exact (Hall _ Hnode eq_refl).
Qed.

Lemma parsed_script_has_no_unknown_node_witness :
  fst (BetterInterpreter.execute_script_step {| statements := [ExitNode] |} new_session)
  ≠ Raise UnknownNodeType.
Proof.
  apply (parsed_script_has_no_unknown_node
           [ {| Lexer.type := Lexer.EXIT; Lexer.value := "exit";
                Lexer.line := 1; Lexer.column := 1 |};
             {| Lexer.type := Lexer.EOF; Lexer.value := "";
                Lexer.line := 1; Lexer.column := 5 |} ]
           [ {| Lexer.type := Lexer.EOF; Lexer.value := "";
                Lexer.line := 1; Lexer.column := 5 |} ]).
  reflexivity.
Defined.

Lemma payload_cons (tokens : list Lexer.Token) (p : Lexer.TokenType * string)
    (ps : list (Lexer.TokenType * string)) :
  map payload tokens = p :: ps →
  ∃ t rest, tokens = t :: rest ∧ payload t = p ∧ map payload rest = ps.
Proof.
  destruct tokens as [|t rest]; [discriminate|]. intros [= Hp Hps]. eauto.
Qed.

Lemma payload_type (t : Lexer.Token) (kind : Lexer.TokenType) (text : string) :
  payload t = (kind, text) → Lexer.type t = kind.
Proof. intros [= H _]. exact H. Qed.

Lemma payload_value (t : Lexer.Token) (kind : Lexer.TokenType) (text : string) :
  payload t = (kind, text) →
  kind = Lexer.STRING ∨ kind = Lexer.VARIABLE ∨ kind = Lexer.LABEL →
  Lexer.value t = text.
Proof.
  unfold payload. intros [= Hk Hv] Hkind. rewrite Hk in Hv.
  destruct Hkind as [-> | [-> | ->]]; exact Hv.
Qed.

(** Takes the first token off a hypothesis [map payload tokens = p :: ps]. *)
Ltac peel H t :=
  let Hp := fresh "Hp" in
  let E := fresh "E" in
  let x := fresh "x" in
  apply payload_cons in H; destruct H as [t [x [E [Hp H]]]];
  match type of E with ?v = _ => subst v end;
  pose proof (payload_type _ _ _ Hp);
  try (pose proof (payload_value _ _ _ Hp ltac:(tauto || (left; reflexivity)
         || (right; left; reflexivity) || (right; right; reflexivity))));
  clear Hp.

Lemma parse_items_render (kind : Lexer.TokenType) (names : list string) :
  kind = Lexer.STRING ∨ kind = Lexer.LABEL →
  ∀ tokens more,
    map payload tokens = (items kind names ++ word Lexer.RBRACE :: more)%list →
    ∃ rest, Parser.parse_items kind tokens = (names, rest) ∧
            map payload rest = word Lexer.RBRACE :: more.
Proof.
  intros Hkind.
  assert (Hk : kind = Lexer.STRING ∨ kind = Lexer.VARIABLE ∨ kind = Lexer.LABEL) by tauto.
  assert (Hnot : kind ≠ Lexer.RBRACE) by (destruct Hkind as [->| ->]; discriminate).
  induction names as [|name names IH]; intros tokens more H.
  - simpl in H. apply payload_cons in H as (t & rest & -> & Hp & H).
    apply payload_type in Hp. exists (t :: rest). split.
    + simpl. rewrite bool_decide_eq_false_2 by congruence. reflexivity.
    + simpl. unfold payload at 1. rewrite Hp. simpl. rewrite H. reflexivity.
  - destruct names as [|name2 names].
    + simpl in H. apply payload_cons in H as (t & rest & -> & Hp & H).
      pose proof (payload_type _ _ _ Hp) as Ht.
      pose proof (payload_value _ _ _ Hp Hk) as Hv.
      pose proof H as H'.
      apply payload_cons in H as (b & rest2 & -> & Hpb & H).
      apply payload_type in Hpb.
      exists (b :: rest2). split; [|exact H'].
      simpl. rewrite bool_decide_eq_true_2 by exact Ht.
      rewrite bool_decide_eq_false_2 by (rewrite Hpb; discriminate).
      rewrite Hv. reflexivity.
    + change (items kind (name :: name2 :: names))
        with ((kind, name) :: word Lexer.COMMA :: items kind (name2 :: names)) in H.
      simpl in H. apply payload_cons in H as (t & rest & -> & Hp & H).
      pose proof (payload_type _ _ _ Hp) as Ht.
      pose proof (payload_value _ _ _ Hp Hk) as Hv.
      apply payload_cons in H as (c & rest2 & -> & Hpc & H).
      apply payload_type in Hpc.
      destruct (IH rest2 more H) as (left & Hitems & Hleft).
      exists left. split; [|exact Hleft].
      cbn [Parser.parse_items]. rewrite bool_decide_eq_true_2 by exact Ht.
      rewrite bool_decide_eq_true_2 by exact Hpc.
      rewrite Hitems, Hv. reflexivity.
Qed.

(** Rewrites the kinds of the tokens known from the hypotheses. *)
Ltac known_kinds :=
  repeat match goal with
         | Ht : Lexer.type ?t = _ |- context [Lexer.type ?t] => rewrite Ht
         end.

Lemma parse_statement_render (kind : Lexer.TokenType) (node : ASTNode)
    (tokens : list Lexer.Token) (more : list (Lexer.TokenType * string)) :
  is_statement node = true →
  is_value_kind kind = true →
  map payload tokens = (render kind node ++ more)%list →
  ∃ rest, Parser.parse_statement tokens = Parser.Done (Some node) rest ∧
          map payload rest = more ∧ (length rest < length tokens)%nat.
Proof.
  intros Hnode Hkind H.
  destruct node as [name|message|var_name v|var_name|var_name compare_value target
                   |target| |intent_names|label_names|]; try discriminate Hnode;
    cbn [render app] in H.
  - peel H t. subst. eexists. split; [|split; [first [exact H | reflexivity] | simpl; lia]].
    unfold Parser.parse_statement, Parser.parse_label, Parser.eat. repeat (progress (known_kinds; simpl)). reflexivity.
  - peel H t. peel H t2. subst. eexists. split; [|split; [first [exact H | reflexivity] | simpl; lia]].
    unfold Parser.parse_statement, Parser.parse_reply, Parser.eat. repeat (progress (known_kinds; simpl)). reflexivity.
  - assert (Hvalue : kind = Lexer.STRING ∨ kind = Lexer.VARIABLE)
      by (destruct kind; try discriminate Hkind; auto).
    destruct Hvalue as [-> | ->].
    + peel H t. peel H t2. peel H t3. peel H t4. subst.
      eexists. split; [|split; [first [exact H | reflexivity] | simpl; lia]].
      unfold Parser.parse_statement, Parser.parse_set, Parser.eat. repeat (progress (known_kinds; simpl)). reflexivity.
    + peel H t. peel H t2. peel H t3. peel H t4. subst.
      eexists. split; [|split; [first [exact H | reflexivity] | simpl; lia]].
      unfold Parser.parse_statement, Parser.parse_set, Parser.eat. repeat (progress (known_kinds; simpl)). reflexivity.
  - peel H t. peel H t2. subst. eexists. split; [|split; [first [exact H | reflexivity] | simpl; lia]].
    unfold Parser.parse_statement, Parser.parse_get_intent, Parser.eat. repeat (progress (known_kinds; simpl)). reflexivity.
  - peel H t. peel H t2. peel H t3. peel H t4. peel H t5. peel H t6. peel H t7. subst.
    eexists. split; [|split; [first [exact H | reflexivity] | simpl; lia]].
    unfold Parser.parse_statement, Parser.parse_if, Parser.eat. repeat (progress (known_kinds; simpl)). reflexivity.
  - peel H t. peel H t2. subst. eexists. split; [|split; [first [exact H | reflexivity] | simpl; lia]].
    unfold Parser.parse_statement, Parser.parse_goto, Parser.eat. repeat (progress (known_kinds; simpl)). reflexivity.
  - peel H t. eexists. split; [|split; [first [exact H | reflexivity] | simpl; lia]].
    unfold Parser.parse_statement, Parser.parse_exit, Parser.eat. repeat (progress (known_kinds; simpl)). reflexivity.
  - peel H t. peel H t2. rewrite <- app_assoc in H. simpl in H.
    match type of H with
    | map payload ?l = _ =>
        destruct (parse_items_render Lexer.STRING intent_names (or_introl eq_refl) _ _ H)
          as (left & Hitems & Hleft);
        pose proof (parse_items_length Lexer.STRING l) as Hlen
    end.
    rewrite Hitems in Hlen. peel Hleft t3.
    eexists. split; [|split; [exact Hleft | simpl in *; lia]].
    unfold Parser.parse_statement, Parser.parse_intents.
    repeat (progress (known_kinds; simpl)). rewrite Hitems.
    repeat (progress (known_kinds; simpl)). reflexivity.
Qed.

Lemma render_starts (kind : Lexer.TokenType) (node : ASTNode) :
  is_statement node = true →
  ∃ first text ps, render kind node = (first, text) :: ps ∧ starts_statement first = true.
Proof. destruct node; try discriminate; intros _; simpl; eauto. Qed.

Lemma well_formed_line (line : Line) :
  well_formed line = true →
  is_statement (statement line) = true ∧ is_value_kind (value_kind line) = true.
Proof. unfold well_formed. intros H. apply andb_prop in H. exact H. Qed.

Lemma render_lines_head (lines : list Line) :
  Forall (fun line => well_formed line = true) lines →
  ∃ kind text ps,
    (render_lines lines ++ [word Lexer.EOF])%list = (kind, text) :: ps ∧
    kind ≠ Lexer.NEWLINE ∧ kind ≠ Lexer.LABELS.
Proof.
  destruct lines as [|line lines]; intros Hall.
  - simpl. eexists _, _, _. split; [reflexivity|]. split; discriminate.
  - apply Forall_cons in Hall as [Hline _].
    apply well_formed_line in Hline as [Hnode _].
    destruct (render_starts (value_kind line) (statement line) Hnode)
      as (kind & text & ps & Hr & Hk).
    simpl. rewrite Hr. simpl. eexists _, _, _. split; [reflexivity|].
    split; intros ->; discriminate Hk.
Qed.

Lemma parse_while_newlines (lead : nat) :
  ∀ fuel tokens statements more,
    map payload tokens = (repeat (word Lexer.NEWLINE) lead ++ more)%list →
    (length tokens <= fuel)%nat →
    ∃ tokens' fuel',
      Parser.parse_while fuel tokens statements = Parser.parse_while fuel' tokens' statements ∧
      map payload tokens' = more ∧ (length tokens' <= fuel')%nat.
Proof.
  induction lead as [|lead IH]; intros fuel tokens statements more H Hlen.
  - exists tokens, fuel. auto.
  - simpl in H. peel H t.
    destruct fuel as [|fuel]; [simpl in Hlen; lia|].
    match type of H with
    | map payload ?l = _ =>
        destruct (IH fuel l statements more H ltac:(simpl in Hlen; lia))
          as (tokens' & fuel' & Heq & Hmore & Hlen')
    end.
    exists tokens', fuel'. split; [|auto].
    cbn [Parser.parse_while]. known_kinds. simpl. exact Heq.
Qed.

Lemma parse_while_render (lines : list Line) :
  Forall (fun line => well_formed line = true) lines →
  ∀ fuel tokens statements,
    map payload tokens = (render_lines lines ++ [word Lexer.EOF])%list →
    (length tokens <= fuel)%nat →
    ∃ rest,
      Parser.parse_while fuel tokens statements
      = Some (Parser.Done (statements ++ map statement lines)%list rest).
Proof.
  induction lines as [|[node vkind k] lines IH]; intros Hall fuel tokens statements H Hlen.
  - simpl in H. peel H t. rewrite app_nil_r.
    eexists. destruct fuel; simpl; known_kinds; reflexivity.
  - apply Forall_cons in Hall as [Hline Hall].
    apply well_formed_line in Hline as [Hnode Hvkind].
    cbn [statement value_kind] in Hnode, Hvkind.
    specialize (IH Hall).
    cbn [render_lines flat_map statement value_kind newlines_after] in H.
    fold (render_lines lines) in H.
    rewrite <- !app_assoc in H.
    destruct (parse_statement_render vkind node tokens _ Hnode Hvkind H)
      as (rest1 & Hs & Hrest1 & Hshort).
    destruct (render_starts vkind node Hnode) as (kind & text & ps & Hr & Hk).
    rewrite Hr in H. simpl in H. peel H t.
    destruct fuel as [|fuel]; [simpl in Hlen; lia|].
    cbn [Parser.parse_while].
    rewrite bool_decide_eq_false_2 by (intros E; rewrite E in *; subst kind; discriminate Hk).
    rewrite bool_decide_eq_false_2 by (intros E; rewrite E in *; subst kind; discriminate Hk).
    rewrite Hs. cbn [Parser.append_statement].
    assert (Hgoal : ∀ toks fu,
              map payload toks = (render_lines lines ++ [word Lexer.EOF])%list →
              (length toks <= fu)%nat →
              ∃ rest, Parser.parse_while fu toks (statements ++ [node])%list
                      = Some (Parser.Done
                                (statements
                                   ++ map statement
                                        ({| statement := node; value_kind := vkind;
                                            newlines_after := k |} :: lines))%list rest)).
    { intros toks fu Ht Hl. destruct (IH fu toks (statements ++ [node])%list Ht Hl) as [rest Hrest].
      exists rest. rewrite Hrest. cbn [map statement]. rewrite <- app_assoc. reflexivity. }
    simpl in Hlen, Hshort.
    destruct k as [|k].
    + simpl in Hrest1.
      destruct (render_lines_head lines Hall) as (kind2 & text2 & ps2 & Hhead & Hnl & _).
      pose proof Hrest1 as Hrest1'. rewrite Hhead in Hrest1'. peel Hrest1' next.
      rewrite bool_decide_eq_false_2 by congruence.
      apply Hgoal; [exact Hrest1 | simpl in *; lia].
    + simpl in Hrest1. pose proof Hrest1 as Hrest1'. peel Hrest1' next.
      rewrite bool_decide_eq_true_2 by assumption.
      match type of Hrest1' with
      | map payload ?l = _ =>
          destruct (parse_while_newlines k fuel l (statements ++ [node])%list _ Hrest1'
                      ltac:(simpl in *; lia))
            as (tokens' & fuel' & Heq & Hmore & Hlen')
      end.
      rewrite Heq. apply Hgoal; assumption.
Qed.

(** X9: the parser reads back what the grammar spells.  Take any statements
    of the eight kinds, the value of each [set] spelled by a string token or
    by a variable token, each statement followed by any number of newlines
    (none included), after any number of leading newlines and an optional
    label declaration at the very start, and end with the end-of-input token:
    whatever the positions recorded in the tokens, [parse] returns these
    statements, in this order, a [set] carrying the text of its value token
    in both spellings. *)
Theorem parse_reads_rendered_script
    (header : option (list string)) (lead : nat) (lines : list Line)
    (tokens : list Lexer.Token) :
  Forall (fun line => well_formed line = true) lines →
  map payload tokens
  = (render_header header ++ repeat (word Lexer.NEWLINE) lead
       ++ render_lines lines ++ [word Lexer.EOF])%list →
  ∃ rest,
    Parser.parse tokens
    = Some (Parser.Done
              {| statements := (header_nodes header ++ map statement lines)%list |} rest).
Proof.
  intros Hall H.
  assert (Hbody : ∀ toks statements,
            map payload toks
            = (repeat (word Lexer.NEWLINE) lead ++ render_lines lines ++ [word Lexer.EOF])%list →
            ∃ rest, Parser.parse_while (length toks) toks statements
                    = Some (Parser.Done (statements ++ map statement lines)%list rest)).
  { intros toks statements Ht.
    destruct (parse_while_newlines lead (length toks) toks statements _ Ht (le_n _))
      as (tokens' & fuel' & Heq & Hmore & Hlen').
    rewrite Heq. exact (parse_while_render lines Hall fuel' tokens' statements Hmore Hlen'). }
  destruct header as [label_names|].
  - cbn [render_header render_declarations app] in H. pose proof H as H0.
    peel H t. peel H t2. rewrite <- app_assoc in H. simpl in H.
    match type of H with
    | map payload ?l = _ =>
        destruct (parse_items_render Lexer.LABEL label_names (or_intror eq_refl) _ _ H)
          as (left & Hitems & Hleft)
    end.
    peel Hleft t3.
    match type of Hleft with
    | map payload ?l = _ => destruct (Hbody l [LabelDeclarationsNode label_names] Hleft)
                              as [rest Hrest]
    end.
    exists rest. unfold Parser.parse, Parser.parse_label_declarations.
    repeat (progress (known_kinds; simpl)). rewrite Hitems.
    repeat (progress (known_kinds; simpl)). rewrite Hrest. reflexivity.
  - cbn [render_header app] in H.
    destruct (Hbody tokens [] H) as [rest Hrest].
    exists rest. unfold Parser.parse.
    assert (Hfirst : ∃ t toks, tokens = t :: toks ∧ Lexer.type t ≠ Lexer.LABELS).
    { destruct lead as [|lead].
      - simpl in H. destruct (render_lines_head lines Hall)
          as (kind & text & ps & Hhead & _ & Hlabels).
        rewrite Hhead in H. peel H t. eexists _, _. split; [reflexivity | congruence].
      - simpl in H. peel H t. eexists _, _. split; [reflexivity | congruence]. }
    destruct Hfirst as (t & toks & -> & Hne).
    rewrite bool_decide_eq_false_2 by exact Hne. rewrite Hrest. reflexivity.
Qed.

Lemma parse_reads_rendered_script_witness :
  ∃ rest,
    Parser.parse
      [ {| Lexer.type := Lexer.SET; Lexer.value := "set"; Lexer.line := 1; Lexer.column := 1 |};
        {| Lexer.type := Lexer.VARIABLE; Lexer.value := "$a"; Lexer.line := 1; Lexer.column := 4 |};
        {| Lexer.type := Lexer.EQUALS; Lexer.value := "=="; Lexer.line := 1; Lexer.column := 6 |};
        {| Lexer.type := Lexer.VARIABLE; Lexer.value := "$b"; Lexer.line := 1; Lexer.column := 8 |};
        {| Lexer.type := Lexer.NEWLINE; Lexer.value := String Lexer.newline "";
           Lexer.line := 1; Lexer.column := 10 |};
        {| Lexer.type := Lexer.SET; Lexer.value := "set"; Lexer.line := 2; Lexer.column := 1 |};
        {| Lexer.type := Lexer.VARIABLE; Lexer.value := "$c"; Lexer.line := 2; Lexer.column := 4 |};
        {| Lexer.type := Lexer.EQUALS; Lexer.value := "=="; Lexer.line := 2; Lexer.column := 6 |};
        {| Lexer.type := Lexer.STRING; Lexer.value := "Hi"; Lexer.line := 2; Lexer.column := 8 |};
        {| Lexer.type := Lexer.NEWLINE; Lexer.value := String Lexer.newline "";
           Lexer.line := 2; Lexer.column := 10 |};
        {| Lexer.type := Lexer.EXIT; Lexer.value := "exit"; Lexer.line := 3; Lexer.column := 1 |};
        {| Lexer.type := Lexer.EOF; Lexer.value := ""; Lexer.line := 3; Lexer.column := 5 |} ]
    = Some (Parser.Done
              {| statements := [SetNode "$a" "$b"; SetNode "$c" "Hi"; ExitNode] |} rest).
Proof.
  apply (parse_reads_rendered_script None 0
           [ {| statement := SetNode "$a" "$b"; value_kind := Lexer.VARIABLE;
                newlines_after := 1 |};
             {| statement := SetNode "$c" "Hi"; value_kind := Lexer.STRING;
                newlines_after := 1 |};
             {| statement := ExitNode; value_kind := Lexer.STRING; newlines_after := 0 |} ]).
  - repeat constructor.
  - reflexivity.
Defined.

(** X10: at the place of a statement the parser accepts a label, [intents],
    [reply], [set], [get_intent], [if], [goto] and [exit] only.  Any other
    token there (a [labels] declaration that is not the first token of the
    script, the [pause_for_user_input] word the lexer knows, a string, a
    brace, ...) ends the parse with the unexpected-token error naming the
    kind and the line of that token. *)
Theorem parse_rejects_other_tokens
    (fuel : nat) (token : Lexer.Token) (rest : list Lexer.Token) (statements : list ASTNode) :
  starts_statement (Lexer.type token) = false →
  Lexer.type token ≠ Lexer.EOF →
  Lexer.type token ≠ Lexer.NEWLINE →
  Parser.parse_while (S fuel) (token :: rest) statements
  = Some (Parser.Fail (Parser.UnexpectedToken (Lexer.type token) (Lexer.line token))).
Proof.
  intros Hstart Heof Hnl. cbn [Parser.parse_while].
  rewrite bool_decide_eq_false_2 by exact Heof.
  rewrite bool_decide_eq_false_2 by exact Hnl.
  unfold Parser.parse_statement.
  destruct (Lexer.type token); try discriminate Hstart; reflexivity.
Qed.

Lemma parse_rejects_other_tokens_witness :
  Parser.parse_while 1
    [ {| Lexer.type := Lexer.PAUSE_FOR_INPUT; Lexer.value := "pause_for_user_input";
         Lexer.line := 3; Lexer.column := 1 |} ] []
  = Some (Parser.Fail (Parser.UnexpectedToken Lexer.PAUSE_FOR_INPUT 3)).
Proof.
  apply (parse_rejects_other_tokens 0
           {| Lexer.type := Lexer.PAUSE_FOR_INPUT; Lexer.value := "pause_for_user_input";
              Lexer.line := 3; Lexer.column := 1 |} [] []).
  - reflexivity.
  - discriminate.
  - discriminate.
Defined.

(** ** Interpolation *)

Lemma finditer_no_sigil (s : string) :
  no_sigil s = true → finditer_variables None s = [].
Proof.
  unfold no_sigil. induction s as [|c t IH]; [reflexivity|].
  cbn [contains_char]. rewrite negb_orb. intros [Hc Ht]%andb_prop.
  cbn [finditer_variables]. rewrite Ascii.eqb_sym.
  apply negb_true_iff in Hc. rewrite Hc. simpl. apply IH, Ht.
Qed.

Lemma finditer_skip_prefix (pre s : string) :
  no_sigil pre = true →
  finditer_variables None (pre ++ s) = finditer_variables None s.
Proof.
  unfold no_sigil. induction pre as [|c t IH]; [reflexivity|].
  cbn [contains_char]. rewrite negb_orb. intros [Hc Ht]%andb_prop.
  change (String c t ++ s) with (String c (t ++ s)).
  cbn [finditer_variables]. rewrite Ascii.eqb_sym.
  apply negb_true_iff in Hc. rewrite Hc. simpl. apply IH, Ht.
Qed.

Lemma append_empty_r (m : string) : m ++ EmptyString = m.
Proof.
  induction m as [|d m IH]; [reflexivity|].
  change (String d m ++ EmptyString) with (String d (m ++ EmptyString)). f_equal. exact IH.
Qed.

Lemma append_snoc (m t : string) (c : ascii) :
  (m ++ String c EmptyString) ++ t = m ++ String c t.
Proof.
  induction m as [|d m IH]; [reflexivity|].
  change ((String d m ++ String c EmptyString) ++ t)
    with (String d ((m ++ String c EmptyString) ++ t)).
  change (String d m ++ String c t) with (String d (m ++ String c t)). f_equal. exact IH.
Qed.

Lemma finditer_extend (name post m : string) :
  all_ident_chars name = true →
  finditer_variables (Some m) (name ++ post) = finditer_variables (Some (m ++ name)) post.
Proof.
  revert m. induction name as [|c t IH]; intros m Hall.
  - change (EmptyString ++ post) with post. rewrite append_empty_r. reflexivity.
  - cbn [all_ident_chars] in Hall. apply andb_prop in Hall as [Hc Ht].
    change (String c t ++ post) with (String c (t ++ post)).
    cbn [finditer_variables]. rewrite Hc. rewrite (IH _ Ht), append_snoc. reflexivity.
Qed.

Lemma finditer_close (post m : string) :
  no_sigil post = true → ends_identifier post = true →
  finditer_variables (Some m) post = [m].
Proof.
  destruct post as [|c t]; [reflexivity|].
  unfold no_sigil. cbn [contains_char ends_identifier]. rewrite negb_orb.
  intros [Hc Ht]%andb_prop Hend.
  cbn [finditer_variables]. apply negb_true_iff in Hend. rewrite Hend.
  rewrite Ascii.eqb_sym. apply negb_true_iff in Hc. rewrite Hc. simpl.
  rewrite (finditer_no_sigil t) by (unfold no_sigil; exact Ht). reflexivity.
Qed.

Lemma finditer_single (pre name post : string) :
  no_sigil pre = true → is_identifier name = true →
  no_sigil post = true → ends_identifier post = true →
  finditer_variables None (pre ++ String "$" (name ++ post)) = [String "$" name].
Proof.
  intros Hpre Hname Hpost Hend. rewrite (finditer_skip_prefix _ _ Hpre).
  unfold is_identifier in Hname. apply andb_prop in Hname as [Hstart Hall].
  cbn [finditer_variables]. change (Ascii.eqb "$" "$") with true.
  assert (Hs : starts_ident (name ++ post) = true)
    by (destruct name; [discriminate Hstart | exact Hstart]).
  rewrite Hs. simpl andb. cbv iota.
  rewrite (finditer_extend _ _ _ Hall). apply finditer_close; assumption.
Qed.

Lemma prefix_sigil_false (old s : string) (c : ascii) :
  Ascii.eqb c "$" = false → String.prefix (String "$" old) (String c s) = false.
Proof.
  intros Hc.
  change (String.prefix (String "$" old) (String c s))
    with (if Ascii.ascii_dec "$" c then String.prefix old s else false).
  destruct (Ascii.ascii_dec "$" c) as [E|E]; [|reflexivity].
  subst c. discriminate Hc.
Qed.

Lemma replace_from_no_sigil (old new s : string) :
  no_sigil s = true → replace_from 0 (String "$" old) new s = s.
Proof.
  unfold no_sigil. induction s as [|c t IH]; [reflexivity|].
  cbn [contains_char]. rewrite negb_orb. intros [Hc Ht]%andb_prop.
  apply negb_true_iff in Hc. rewrite Ascii.eqb_sym in Hc.
  cbn [replace_from]. rewrite (prefix_sigil_false _ _ _ Hc). rewrite (IH Ht). reflexivity.
Qed.

Lemma replace_from_prefix (old new pre s : string) :
  no_sigil pre = true →
  replace_from 0 (String "$" old) new (pre ++ s)
  = pre ++ replace_from 0 (String "$" old) new s.
Proof.
  unfold no_sigil. induction pre as [|c t IH]; [reflexivity|].
  cbn [contains_char]. rewrite negb_orb. intros [Hc Ht]%andb_prop.
  apply negb_true_iff in Hc. rewrite Ascii.eqb_sym in Hc.
  change (String c t ++ s) with (String c (t ++ s)).
  cbn [replace_from]. rewrite (prefix_sigil_false _ _ _ Hc). rewrite (IH Ht). reflexivity.
Qed.

Lemma replace_from_skip (old new a b : string) :
  replace_from (String.length a) old new (a ++ b) = replace_from 0 old new b.
Proof. induction a as [|c t IH]; [reflexivity|]. simpl. destruct (t ++ b); exact IH. Qed.

Lemma prefix_append (a b : string) : String.prefix a (a ++ b) = true.
Proof.
  induction a as [|c t IH]; [destruct b; reflexivity|].
  change (String.prefix (String c t) (String c t ++ b))
    with (if Ascii.ascii_dec c c then String.prefix t (t ++ b) else false).
  destruct (Ascii.ascii_dec c c); [exact IH | contradiction].
Qed.

Lemma replace_single (pre name post new : string) :
  no_sigil pre = true → no_sigil post = true →
  replace (pre ++ String "$" (name ++ post)) (String "$" name) new = pre ++ new ++ post.
Proof.
  intros Hpre Hpost. unfold replace. rewrite (replace_from_prefix _ _ _ _ Hpre).
  f_equal. cbn [replace_from].
  change (String "$" (name ++ post)) with (String "$" name ++ post).
  rewrite prefix_append.
  change (String.length (String "$" name) - 1)%nat with (String.length name - 0)%nat.
  rewrite Nat.sub_0_r, replace_from_skip, (replace_from_no_sigil _ _ _ Hpost). reflexivity.
Qed.

Lemma strip_sigil_sigil (name : string) : strip_sigil (String "$" name) = name.
Proof. destruct name; reflexivity. Qed.

(** X11: a template with one reference is interpolated as one expects: when
    the text before and after [$name] has no [$] and the text after it does
    not go on with a letter, digit or underscore, the result is the text
    with [$name] replaced by the value of the variable, or by nothing when
    the variable is not set. *)
Theorem single_reference_is_interpolated
    (pre name post : string) (it : BetterInterpreter.Interpreter) :
  no_sigil pre = true → is_identifier name = true →
  no_sigil post = true → ends_identifier post = true →
  BetterInterpreter._resolve_variables_in_string (pre ++ String "$" (name ++ post)) it
  = pre ++ str (default (PyStr "") (variables (BetterInterpreter.runtime it) !! name)) ++ post.
Proof.
  intros Hpre Hname Hpost Hend. unfold BetterInterpreter._resolve_variables_in_string.
  rewrite (finditer_single _ _ _ Hpre Hname Hpost Hend). cbn [fold_left].
  rewrite (replace_single _ _ _ _ Hpre Hpost).
  unfold get_variable. rewrite strip_sigil_sigil.
  destruct (variables (BetterInterpreter.runtime it) !! name); reflexivity.
Qed.

Lemma single_reference_is_interpolated_witness :
  BetterInterpreter._resolve_variables_in_string ("Hi " ++ String "$" ("a" ++ "!")) session_a_ab
  = "Hi " ++ "X" ++ "!".
Proof.
  apply (single_reference_is_interpolated "Hi " "a" "!" session_a_ab); reflexivity.
Defined.

(** ** Running a script to its end *)

Lemma resolve_variables_ext (message : string) (it1 it2 : BetterInterpreter.Interpreter) :
  variables (BetterInterpreter.runtime it1) = variables (BetterInterpreter.runtime it2) →
  BetterInterpreter._resolve_variables_in_string message it1
  = BetterInterpreter._resolve_variables_in_string message it2.
Proof.
  intros H. unfold BetterInterpreter._resolve_variables_in_string, get_variable.
  rewrite H. reflexivity.
Qed.

Lemma define_label_runtime (name : string) (n : Z) (it : BetterInterpreter.Interpreter) :
  BetterInterpreter.runtime (BetterInterpreter._define_label name n it)
  = BetterInterpreter.runtime it.
Proof.
  unfold BetterInterpreter._define_label. case_bool_decide; [reflexivity|].
  destruct (BetterInterpreter._pending_gotos _ !! name); reflexivity.
Qed.

Lemma scan_labels_from_runtime (nodes : list ASTNode) :
  ∀ n it, BetterInterpreter.runtime (BetterInterpreter.scan_labels_from n nodes it)
          = BetterInterpreter.runtime it.
Proof.
  induction nodes as [|node nodes IH]; intros n it; [reflexivity|].
  simpl. rewrite IH. destruct node; try reflexivity. apply define_label_runtime.
Qed.

Lemma scan_labels_runtime (script : ScriptNode) (it : BetterInterpreter.Interpreter) :
  BetterInterpreter.runtime (BetterInterpreter._scan_labels script it)
  = BetterInterpreter.runtime it.
Proof. unfold BetterInterpreter._scan_labels. rewrite scan_labels_from_runtime. reflexivity. Qed.

Lemma phase2_while_replies (messages : list string) (it : BetterInterpreter.Interpreter)
    (remaining : nat) :
  ∀ replies st,
    should_exit (BetterInterpreter.runtime st) = false →
    variables (BetterInterpreter.runtime st) = variables (BetterInterpreter.runtime it) →
    0 ≤ current_line (BetterInterpreter.runtime st) →
    fst (BetterInterpreter.phase2_while {| statements := map ReplyNode messages |}
           remaining replies st)
    = Ok ((remaining
           - length (drop (Z.to_nat (current_line (BetterInterpreter.runtime st))) messages))%nat,
          fold_left
            (fun replies message =>
               append_if_true
                 (Some (BetterInterpreter._resolve_variables_in_string message it)) replies)
            (take remaining
               (drop (Z.to_nat (current_line (BetterInterpreter.runtime st))) messages))
            replies).
Proof.
  induction remaining as [|remaining IH]; intros replies st Hexit Hvars Hpc; [reflexivity|].
  cbn [BetterInterpreter.phase2_while]. rewrite Hexit.
  unfold BetterInterpreter.len. cbn [statements]. rewrite length_map.
  destruct (drop (Z.to_nat (current_line (BetterInterpreter.runtime st))) messages)
    as [|message suffix] eqn:Hdrop.
  - apply (f_equal length) in Hdrop. rewrite length_drop in Hdrop. simpl in Hdrop.
    destruct (Z.ltb_spec (current_line (BetterInterpreter.runtime st))
                (Z.of_nat (length messages))); [lia|].
    reflexivity.
  - assert (Hlook : messages !! Z.to_nat (current_line (BetterInterpreter.runtime st))
                    = Some message).
    { pose proof (lookup_drop messages
                    (Z.to_nat (current_line (BetterInterpreter.runtime st))) 0) as Hl.
      rewrite Hdrop, Nat.add_0_r in Hl. symmetry. exact Hl. }
    pose proof (lookup_lt_Some _ _ _ Hlook) as Hlt.
    destruct (Z.ltb_spec (current_line (BetterInterpreter.runtime st))
                (Z.of_nat (length messages))); [|lia].
    cbn [andb negb]. unfold getitem.
    destruct (Z.leb_spec 0 (current_line (BetterInterpreter.runtime st))); [|lia].
    rewrite list_lookup_fmap, Hlook. cbn [fmap option_fmap option_map].
    set (st1 := BetterInterpreter.with_pause true (Some "reply")
                  (BetterInterpreter.with_pause false (BetterInterpreter._pause_reason st)
                     (BetterInterpreter.with_has_jumped false st))).
    assert (He : BetterInterpreter._execute_node (ReplyNode message)
                   (current_line (BetterInterpreter.runtime st)) st
                 = (Ok (Some (BetterInterpreter._resolve_variables_in_string message it)), st1)).
    { unfold BetterInterpreter._execute_node. cbv zeta.
      rewrite (resolve_variables_ext message _ it) by exact Hvars. reflexivity. }
    rewrite He. cbv beta iota zeta.
    change (BetterInterpreter._has_jumped st1) with false. cbv iota.
    pose proof (IH (append_if_true
                      (Some (BetterInterpreter._resolve_variables_in_string message it)) replies)
                  (BetterInterpreter.with_runtime
                     (with_current_line (current_line (BetterInterpreter.runtime st1) + 1)
                        (BetterInterpreter.runtime st1)) st1)
                  Hexit Hvars) as HI.
    change (current_line
              (BetterInterpreter.runtime
                 (BetterInterpreter.with_runtime
                    (with_current_line (current_line (BetterInterpreter.runtime st1) + 1)
                       (BetterInterpreter.runtime st1)) st1)))
      with (current_line (BetterInterpreter.runtime st) + 1) in HI.
    specialize (HI ltac:(lia)).
    refine (eq_trans HI _).
    replace (Z.to_nat (current_line (BetterInterpreter.runtime st) + 1))
      with (Z.to_nat (current_line (BetterInterpreter.runtime st)) + 1)%nat by lia.
    rewrite <- drop_drop, Hdrop. reflexivity.
Qed.

(** X12: [execute_script] runs through replies without pausing.  On a script
    of replies only it returns every interpolated message that is not empty,
    in order, when the script has fewer than 1000 statements; with 1000
    statements or more it raises the possible-infinite-loop error, although
    such a script has no loop (at exactly 1000 all of it has been
    executed). *)
Theorem execute_script_collects_replies
    (messages : list string) (it : BetterInterpreter.Interpreter) :
  fst (BetterInterpreter.execute_script {| statements := map ReplyNode messages |} it)
  = if (length messages <? BetterInterpreter.max_iterations)%nat
    then Ok (collected it messages)
    else Raise PossibleInfiniteLoop.
Proof.
  unfold BetterInterpreter.execute_script, BetterInterpreter._execute_script_phase2.
  cbv zeta.
  set (st := BetterInterpreter.with_runtime _ _).
  assert (Hvars : variables (BetterInterpreter.runtime st)
                  = variables (BetterInterpreter.runtime it)).
  { change (variables (BetterInterpreter.runtime st))
      with (variables (BetterInterpreter.runtime
              (BetterInterpreter._scan_labels {| statements := map ReplyNode messages |} it))).
    rewrite scan_labels_runtime. reflexivity. }
  pose proof (phase2_while_replies messages it BetterInterpreter.max_iterations [] st
                eq_refl Hvars (Z.le_refl 0)) as Hw.
  change (Z.to_nat (current_line (BetterInterpreter.runtime st))) with O in Hw.
  rewrite drop_0 in Hw.
  destruct (BetterInterpreter.phase2_while _ _ _ st) as [[[remaining replies]|e] it1];
    cbn [fst] in Hw; [|discriminate Hw].
  injection Hw as -> ->.
  destruct (Nat.ltb_spec (length messages) BetterInterpreter.max_iterations) as [Hlt|Hge].
  - destruct (Nat.leb_spec BetterInterpreter.max_iterations
                (BetterInterpreter.max_iterations
                 - (BetterInterpreter.max_iterations - length messages))); [lia|].
    cbn [fst]. rewrite take_ge by lia. reflexivity.
  - destruct (Nat.leb_spec BetterInterpreter.max_iterations
                (BetterInterpreter.max_iterations
                 - (BetterInterpreter.max_iterations - length messages))); [reflexivity | lia].
Qed.

(** ** The runtime environment, further *)

(** X13: a variable reads back what was stored last under its name, where a
    name with and without the leading [$] is the same name; storing under
    one name changes no other variable. *)
Theorem variable_round_trip (name other : string) (v d : Value) (rt : RuntimeEnvironment) :
  get_variable other d (set_variable name v rt)
  = if bool_decide (strip_sigil other = strip_sigil name) then v
    else get_variable other d rt.
Proof.
  unfold get_variable, set_variable. cbn [variables with_variables].
  case_bool_decide as Hsame.
  - rewrite Hsame, lookup_insert_eq. reflexivity.
  - rewrite lookup_insert_ne by congruence. reflexivity.
Qed.

Lemma strip_sigil_plain (name : string) : startswith name "$" = false → strip_sigil name = name.
Proof. intros H. unfold strip_sigil. rewrite H. reflexivity. Qed.

(** X14: for a name that does not itself start with [$], writing [$name] or
    [name] is the same to the environment: each form reads what the other
    stored, and both store the same. *)
Theorem sigil_is_optional (name : string) (v d : Value) (rt : RuntimeEnvironment) :
  startswith name "$" = false →
  get_variable (String "$" name) d (set_variable name v rt) = v ∧
  get_variable name d (set_variable (String "$" name) v rt) = v ∧
  set_variable (String "$" name) v rt = set_variable name v rt.
Proof.
  intros Hplain. unfold get_variable, set_variable. cbn [variables with_variables].
  rewrite strip_sigil_sigil, (strip_sigil_plain name Hplain), lookup_insert_eq.
  repeat split.
Qed.

Lemma sigil_is_optional_witness :
  get_variable "$name" PyNone (set_variable "name" (PyStr "Alice") Runtime.__init__)
  = PyStr "Alice".
Proof.
  exact (proj1 (sigil_is_optional "name" (PyStr "Alice") PyNone Runtime.__init__ eq_refl)).
Defined.

(** X15: the label table of the environment keeps the last line registered
    for a label; a jump to a registered label answers [True] and sets the
    current line to that line, changing nothing else, and after [reset] a
    jump to any label answers [False] and changes nothing. *)
Theorem label_table_round_trip (label : string) (n m : Z) (rt : RuntimeEnvironment) :
  jump_to_label label (register_label label n rt)
    = (true, with_current_line n (register_label label n rt)) ∧
  register_label label n (register_label label m rt) = register_label label n rt ∧
  jump_to_label label (reset rt) = (false, reset rt).
Proof.
  unfold jump_to_label, register_label. cbn [labels with_labels reset].
  rewrite lookup_insert_eq, insert_insert_eq, lookup_empty. repeat split.
Qed.


(** ** The stepping interpreter, further *)

Lemma scan_labels_from_last (name : string) (nodes : list ASTNode) :
  ∀ n it,
    In (LabelNode name) nodes →
    ∃ j, BetterInterpreter._label_cache (BetterInterpreter.scan_labels_from n nodes it)
           !! name = Some j ∧
         n ≤ j ∧ nodes !! Z.to_nat (j - n) = Some (LabelNode name) ∧
         ∀ k, (Z.to_nat (j - n) < k)%nat → nodes !! k ≠ Some (LabelNode name).
Proof.
  induction nodes as [|node nodes IH]; intros n it Hin; [destruct Hin|].
  cbn [BetterInterpreter.scan_labels_from].
  set (it1 := match node with
              | LabelNode label => BetterInterpreter._define_label label n it
              | _ => it
              end).
  destruct (in_dec ASTNode_eq_dec (LabelNode name) nodes) as [Hrest|Hrest].
  - destruct (IH (n + 1) it1 Hrest) as (j & Hj & Hle & Hat & Hlast).
    exists j. split; [exact Hj|]. split; [lia|].
    replace (Z.to_nat (j - n)) with (S (Z.to_nat (j - (n + 1)))) by lia.
    split; [exact Hat|].
    intros [|k] Hk; [lia|]. apply Hlast. lia.
  - destruct Hin as [->|Hin]; [|contradiction].
    exists n. split; [|split; [lia|]].
    + rewrite (proj2 (scan_labels_from_spec name nodes (n + 1) it1) Hrest).
      subst it1. rewrite define_label_cache. apply lookup_insert_eq.
    + replace (Z.to_nat (n - n)) with O by lia. split; [reflexivity|].
      intros [|k] Hk; [lia|]. intros Hat. apply Hrest.
      apply list_elem_of_In. eapply list_elem_of_lookup_2. exact Hat.
Qed.

(** X16: when a label is defined more than once, the prescan keeps the last
    definition without any error: after [_scan_labels] the label is located
    at an index where a definition of it stands, and no definition of it
    stands at a later index. *)
Theorem prescan_keeps_last_definition
    (script : ScriptNode) (it : BetterInterpreter.Interpreter) (name : string) :
  In (LabelNode name) (statements script) →
  ∃ j, BetterInterpreter._label_cache (BetterInterpreter._scan_labels script it) !! name
         = Some j ∧
       getitem (statements script) j = Some (LabelNode name) ∧
       ∀ i, j < i → getitem (statements script) i ≠ Some (LabelNode name).
Proof.
  intros Hin. unfold BetterInterpreter._scan_labels.
  destruct (scan_labels_from_last name (statements script) 0
              (BetterInterpreter.with_label_cache ∅ it) Hin) as (j & Hj & Hle & Hat & Hlast).
  exists j. split; [exact Hj|].
  replace (j - 0) with j in * by lia.
  split.
  - unfold getitem. destruct (Z.leb_spec 0 j); [exact Hat | lia].
  - intros i Hi. unfold getitem. destruct (Z.leb_spec 0 i); [|lia].
    apply Hlast. lia.
Qed.

Lemma prescan_keeps_last_definition_witness :
  ∃ j, BetterInterpreter._label_cache (BetterInterpreter._scan_labels goto_loop new_session)
         !! "loop" = Some j ∧
       getitem (statements goto_loop) j = Some (LabelNode "loop") ∧
       ∀ i, j < i → getitem (statements goto_loop) i ≠ Some (LabelNode "loop").
Proof.
  apply (prescan_keeps_last_definition goto_loop new_session "loop").
  left. reflexivity.
Defined.

(** X17: an [if] whose comparison fails never jumps and never fails, whatever
    its target is (declared or not): the step returns nothing, moves to the
    next statement and leaves variables, labels and pending jumps alone. *)
Theorem if_false_falls_through
    (script : ScriptNode) (it : BetterInterpreter.Interpreter)
    (var_name compare_value target : string) :
  current_line (BetterInterpreter.runtime it) < BetterInterpreter.len script →
  getitem (statements script) (current_line (BetterInterpreter.runtime it))
    = Some (IfNode var_name compare_value target) →
  get_variable var_name (PyStr "") (BetterInterpreter.runtime it) ≠ PyStr compare_value →
  BetterInterpreter.execute_script_step script it
  = (Ok None,
     BetterInterpreter.with_runtime
       (with_current_line (current_line (BetterInterpreter.runtime it) + 1)
          (BetterInterpreter.runtime it))
       (BetterInterpreter.with_pause false (BetterInterpreter._pause_reason it)
          (BetterInterpreter.with_has_jumped false it))).
Proof.
  intros Hlt Hnode Hne. unfold BetterInterpreter.execute_script_step.
  destruct (Z.leb_spec (BetterInterpreter.len script)
              (current_line (BetterInterpreter.runtime it))); [lia|].
  rewrite Hnode. unfold BetterInterpreter._execute_node. cbv zeta.
  change (BetterInterpreter.runtime
            (BetterInterpreter.with_pause false (BetterInterpreter._pause_reason it)
               (BetterInterpreter.with_has_jumped false it)))
    with (BetterInterpreter.runtime it).
  rewrite bool_decide_eq_false_2 by exact Hne. reflexivity.
Qed.

Lemma if_false_falls_through_witness :
  fst (BetterInterpreter.execute_script_step
         {| statements := [IfNode "$intent" "query_price" "nowhere"; ExitNode] |} new_session)
  = Ok None.
Proof.
  rewrite (if_false_falls_through
             {| statements := [IfNode "$intent" "query_price" "nowhere"; ExitNode] |}
             new_session "$intent" "query_price" "nowhere").
  - reflexivity.
  - reflexivity.
  - reflexivity.
  - discriminate.
Defined.

Lemma execute_script_while_exited (fuel : nat) (script : ScriptNode) (replies : list string)
    (it : BetterInterpreter.Interpreter) :
  should_exit (BetterInterpreter.runtime it) = true →
  MainController.execute_script_while fuel script replies it = Some (Ok replies, it).
Proof.
  intros H. destruct fuel; simpl; rewrite H, andb_false_r; reflexivity.
Qed.

(** X18: an [exit] ends the session.  A turn of the controller that starts
    at an [exit] statement (exit flag clear) clears the pause flag and its
    reason, sets the exit flag, moves the program counter past the [exit]
    and returns no reply.  From the controller this leaves, every later turn
    returns at once, with no reply, and leaves the controller exactly as it
    is, however many statements follow the [exit]. *)
Theorem exit_ends_the_session
    (script : ScriptNode) (it : BetterInterpreter.Interpreter) (fuel : nat) :
  current_line (BetterInterpreter.runtime it) < BetterInterpreter.len script →
  should_exit (BetterInterpreter.runtime it) = false →
  getitem (statements script) (current_line (BetterInterpreter.runtime it)) = Some ExitNode →
  let exited :=
    {| MainController.script_ast := Some script;
       MainController.interpreter :=
         BetterInterpreter.with_runtime
           (with_current_line (current_line (BetterInterpreter.runtime it) + 1)
              (with_should_exit true (BetterInterpreter.runtime it)))
           (BetterInterpreter.with_pause false None
              (BetterInterpreter.with_has_jumped false it)) |} in
  MainController._execute_script (S fuel)
    {| MainController.script_ast := Some script; MainController.interpreter := it |}
    = Some ([], exited) ∧
  ∀ later_fuel, MainController._execute_script later_fuel exited = Some ([], exited).
Proof.
  intros Hlt Hexit Hnode exited.
  assert (Hstep : BetterInterpreter.execute_script_step script
                    (BetterInterpreter.resume_execution it)
                  = (Ok None, MainController.interpreter exited)).
  { unfold BetterInterpreter.execute_script_step.
    change (BetterInterpreter.runtime (BetterInterpreter.resume_execution it))
      with (BetterInterpreter.runtime it).
    destruct (Z.leb_spec (BetterInterpreter.len script)
                (current_line (BetterInterpreter.runtime it))); [lia|].
    rewrite Hnode. reflexivity. }
  split.
  - unfold MainController._execute_script. cbn [MainController.script_ast MainController.interpreter].
    rewrite (execute_script_while_next fuel script [] (BetterInterpreter.resume_execution it)
               (MainController.interpreter exited) None);
      [ | apply Z.ltb_lt; exact Hlt | exact Hexit | exact Hstep | reflexivity].
    rewrite execute_script_while_exited by reflexivity. reflexivity.
  - intros later_fuel. unfold MainController._execute_script.
    cbn [MainController.script_ast exited].
    rewrite execute_script_while_exited by reflexivity. reflexivity.
Qed.

Lemma exit_ends_the_session_witness :
  MainController._execute_script 1
    {| MainController.script_ast := Some {| statements := [ExitNode; ReplyNode "late"] |};
       MainController.interpreter :=
         BetterInterpreter.with_pause true (Some "reply") new_session |}
  = Some ([],
          {| MainController.script_ast := Some {| statements := [ExitNode; ReplyNode "late"] |};
             MainController.interpreter :=
               BetterInterpreter.with_runtime
                 (with_current_line 1 (with_should_exit true Runtime.__init__)) new_session |}).
Proof.
  refine (proj1 (exit_ends_the_session {| statements := [ExitNode; ReplyNode "late"] |}
                   (BetterInterpreter.with_pause true (Some "reply") new_session) 0 _ _ _)).
  - reflexivity.
  - reflexivity.
  - reflexivity.
Defined.

(** X19: what [set] stores is what a following [reply] shows.  After the step
    on [set $name == "text"], with a text that does not start with [$], the
    step on a reply whose template has the one reference [$name] (no other
    [$], and no letter, digit or underscore right after the name) returns
    the template with [$name] replaced by that text. *)
Theorem set_then_reply
    (script : ScriptNode) (it : BetterInterpreter.Interpreter)
    (name text pre post : string) :
  0 ≤ current_line (BetterInterpreter.runtime it) →
  current_line (BetterInterpreter.runtime it) + 1 < BetterInterpreter.len script →
  getitem (statements script) (current_line (BetterInterpreter.runtime it))
    = Some (SetNode (String "$" name) text) →
  getitem (statements script) (current_line (BetterInterpreter.runtime it) + 1)
    = Some (ReplyNode (pre ++ String "$" (name ++ post))) →
  startswith text "$" = false →
  no_sigil pre = true → is_identifier name = true →
  no_sigil post = true → ends_identifier post = true →
  fst (BetterInterpreter.execute_script_step script it) = Ok None ∧
  fst (BetterInterpreter.execute_script_step script
         (snd (BetterInterpreter.execute_script_step script it)))
  = Ok (Some (pre ++ text ++ post)).
Proof.
  intros Hpc Hlt Hset Hreply Htext Hpre Hname Hpost Hend.
  set (st1 := BetterInterpreter.with_runtime
                (with_current_line (current_line (BetterInterpreter.runtime it) + 1)
                   (set_variable (String "$" name) (PyStr text) (BetterInterpreter.runtime it)))
                (BetterInterpreter.with_pause false (BetterInterpreter._pause_reason it)
                   (BetterInterpreter.with_has_jumped false it))).
  assert (Hstep : BetterInterpreter.execute_script_step script it = (Ok None, st1)).
  { unfold BetterInterpreter.execute_script_step.
    destruct (Z.leb_spec (BetterInterpreter.len script)
                (current_line (BetterInterpreter.runtime it))); [lia|].
    rewrite Hset. unfold BetterInterpreter._execute_node. cbv zeta.
    rewrite Htext. reflexivity. }
  rewrite Hstep. split; [reflexivity|]. cbn [snd].
  unfold BetterInterpreter.execute_script_step.
  change (current_line (BetterInterpreter.runtime st1))
    with (current_line (BetterInterpreter.runtime it) + 1).
  destruct (Z.leb_spec (BetterInterpreter.len script)
              (current_line (BetterInterpreter.runtime it) + 1)); [lia|].
  rewrite Hreply. unfold BetterInterpreter._execute_node. cbv zeta. cbn [fst].
  f_equal. f_equal. unfold BetterInterpreter._resolve_variables_in_string.
  rewrite (finditer_single _ _ _ Hpre Hname Hpost Hend). cbn [fold_left].
  rewrite (replace_single _ _ _ _ Hpre Hpost).
  unfold get_variable. rewrite strip_sigil_sigil.
  change (variables (BetterInterpreter.runtime
            (BetterInterpreter.with_pause false (BetterInterpreter._pause_reason st1)
               (BetterInterpreter.with_has_jumped false st1))))
    with (<[strip_sigil (String "$" name) := PyStr text]>
            (variables (BetterInterpreter.runtime it))).
  rewrite strip_sigil_sigil, lookup_insert_eq. reflexivity.
Qed.

Lemma set_then_reply_witness :
  fst (BetterInterpreter.execute_script_step
         {| statements := [SetNode "$name" "Bob"; ReplyNode ("Hi " ++ String "$" ("name" ++ ""))] |}
         (snd (BetterInterpreter.execute_script_step
                 {| statements :=
                      [SetNode "$name" "Bob"; ReplyNode ("Hi " ++ String "$" ("name" ++ ""))] |}
                 new_session)))
  = Ok (Some ("Hi " ++ "Bob" ++ "")).
Proof.
  refine (proj2 (set_then_reply
                   {| statements :=
                        [SetNode "$name" "Bob"; ReplyNode ("Hi " ++ String "$" ("name" ++ ""))] |}
                   new_session "name" "Bob" "Hi " "" _ _ _ _ _ _ _ _ _));
    first [reflexivity | discriminate].
Defined.

(** ** The controller, further *)

Lemma dict_set_keys {V} (key : string) (v : V) (items : list (string * V)) (k : string) :
  In k (map fst (Conversation.dict_set key v items)) → k = key ∨ In k (map fst items).
Proof.
  induction items as [|[k0 w] items IH]; simpl.
  - intros [<-|[]]. left. reflexivity.
  - case_bool_decide as Hk; simpl.
    + intros [<-|Hin]; [right; left; reflexivity | right; right; exact Hin].
    + intros [<-|Hin]; [right; left; reflexivity|].
      destruct (IH Hin) as [->|Hin']; [left; reflexivity | right; right; exact Hin'].
Qed.

Lemma keyword_mapping_keys (dsl_intents : list string) :
  ∀ (mapping : list (string * gset string)) (k : string),
    In k (map fst
            (fold_left
               (fun mapping intent =>
                  Conversation.dict_set intent (Conversation.keywords_of intent) mapping)
               dsl_intents mapping)) →
    In k dsl_intents ∨ In k (map fst mapping).
Proof.
  induction dsl_intents as [|intent dsl_intents IH]; intros mapping k H; [right; exact H|].
  simpl in H. destruct (IH _ _ H) as [Hin|Hin]; [left; right; exact Hin|].
  apply dict_set_keys in Hin as [->|Hin]; [left; left; reflexivity | right; exact Hin].
Qed.

Lemma first_keyword_match_key (user_input : string) (items : list (string * gset string))
    (intent : string) :
  Conversation.first_keyword_match user_input items = Some intent → In intent (map fst items).
Proof.
  induction items as [|[k keywords] items IH]; [discriminate|].
  simpl. destruct (Conversation.any_keyword_in user_input keywords).
  - intros [= <-]. left. reflexivity.
  - intros H. right. exact (IH H).
Qed.

(** X20: the keyword fallback keeps the contract of a classifier: for every
    input its answer is one of the intents of the script, and only when the
    script has no intents it is the fallback word. *)
Theorem keyword_intent_is_a_candidate (dsl_intents : list string) (user_input : string) :
  In (Conversation._keyword_based_intent dsl_intents user_input) dsl_intents ∨
  (dsl_intents = [] ∧ Conversation._keyword_based_intent dsl_intents user_input = "其他").
Proof.
  unfold Conversation._keyword_based_intent.
  destruct (Conversation.first_keyword_match _ _) as [intent|] eqn:Hm.
  - left. apply first_keyword_match_key in Hm.
    destruct (keyword_mapping_keys dsl_intents [] intent Hm) as [H|[]]. exact H.
  - destruct dsl_intents as [|first rest]; [right; split; reflexivity | left; left; reflexivity].
Qed.

(** X21: [reset_conversation] starts the environment again with the initial
    variables only, at line 0 and with a clear exit flag, whatever the old
    session held; it does not reset the interpreter, which keeps the labels
    it has located, the label statements it has marked as executed and its
    pause flag. *)
Theorem reset_conversation_restarts_environment
    (dsl_intents : list string) (c : MainController.DSLController) :
  let it := MainController.interpreter c in
  let it' := MainController.interpreter (Conversation.reset_conversation dsl_intents c) in
  variables (BetterInterpreter.runtime it')
    = variables (Conversation._set_initial_variables dsl_intents Runtime.__init__) ∧
  get_variable "$user_input" PyNone (BetterInterpreter.runtime it') = PyStr "" ∧
  get_variable "$intent" PyNone (BetterInterpreter.runtime it') = PyStr "" ∧
  labels (BetterInterpreter.runtime it') = ∅ ∧
  current_line (BetterInterpreter.runtime it') = 0 ∧
  should_exit (BetterInterpreter.runtime it') = false ∧
  BetterInterpreter._label_cache it' = BetterInterpreter._label_cache it ∧
  BetterInterpreter._label_statements_processed it'
    = BetterInterpreter._label_statements_processed it ∧
  BetterInterpreter._execution_paused it' = BetterInterpreter._execution_paused it.
Proof. repeat split. Qed.
